(** * A shallow embedding of parts of glio (glio/train/cbs_default.py and
    glio/torch_tools.py).

    Framework objects (tensors, modules, optimizers, schedulers,
    accelerators) are opaque: their types are section variables and every
    call into the framework is recorded in a trace and answered by an
    oracle, which may also raise a framework exception. *)

From Stdlib Require Import List ZArith Bool String Lia.
Import ListNotations.
Open Scope Z_scope.

(* ================================================================== *)
(** ** Event-driven training loop: the Learner and its default callbacks *)

Section EventLoop.

Context {Tensor Obj Exn : Type}.

(** Calls into the deep-learning framework made by the default callbacks. *)
Inductive FwCall :=
  | CModel (m : Obj) (x : Tensor)                (* learner.model(inputs) *)
  | CLossFn (f : Obj) (p t : Tensor)             (* learner.loss_fn(preds, targets) *)
  | CTo (x : Tensor) (dev : Obj)                 (* x.to(device) *)
  | CLossBackward (l : Tensor)                   (* learner.loss.backward() *)
  | CAccelBackward (a : Obj) (l : Tensor)        (* accelerator.backward(loss) *)
  | COptStep (o : Obj) (args : list Obj)         (* optimizer.step( *args, **kwargs) *)
  | COptZeroGrad (o : Obj)                       (* optimizer.zero_grad() *)
  | CSchedStep (s : Obj)                         (* scheduler.step() *)
  | CModelTrain (m : Obj)                        (* model.train() *)
  | COptTrain (o : Obj)                          (* optimizer.train() *)
  | CNoGradEnter                                 (* torch.no_grad().__enter__ *)
  | CNoGradExit.                                 (* torch.no_grad().__exit__ *)

(** The attributes of a Learner that the default callbacks touch. *)
Record Learner := mkLearner {
  model : Obj;
  loss_fn : Obj;
  optimizer : Obj;
  scheduler : option Obj;
  accelerator : option Obj;
  device : Obj;
  preds : Tensor;
  loss : Tensor;
  cur_batch : Z;
  cur_epoch : Z;
  total_epoch : Z
}.

Definition set_preds (l : Learner) (v : Tensor) : Learner :=
  mkLearner l.(model) l.(loss_fn) l.(optimizer) l.(scheduler) l.(accelerator)
    l.(device) v l.(loss) l.(cur_batch) l.(cur_epoch) l.(total_epoch).

Definition set_loss (l : Learner) (v : Tensor) : Learner :=
  mkLearner l.(model) l.(loss_fn) l.(optimizer) l.(scheduler) l.(accelerator)
    l.(device) l.(preds) v l.(cur_batch) l.(cur_epoch) l.(total_epoch).

(** What happened during a call: a learner event was dispatched by name,
    or the framework was called. *)
Inductive Action :=
  | Ev (name : string)
  | Fw (c : FwCall).

Record St := mkSt { lrn : Learner; trace : list Action }.

Inductive Res (A : Type) :=
  | Ok (a : A)
  | Exc (e : Exn).
Arguments Ok {A} a.
Arguments Exc {A} e.

(** Python code run against a state: effects that happened before an
    exception stay in the state. *)
Definition M (A : Type) := St -> Res A * St.

Definition ret {A} (a : A) : M A := fun s => (Ok a, s).
Definition bind {A B} (m : M A) (k : A -> M B) : M B :=
  fun s => match m s with
           | (Ok a, s') => k a s'
           | (Exc e, s') => (Exc e, s')
           end.

Notation "x <- m ;; k" := (bind m (fun x => k))
  (at level 61, m at next level, right associativity).
Notation "m ;;; k" := (bind m (fun _ => k))
  (at level 61, right associativity).

Definition get_learner : M Learner := fun s => (Ok s.(lrn), s).
Definition put_learner (l : Learner) : M unit :=
  fun s => (Ok tt, mkSt l s.(trace)).
Definition log (a : Action) : M unit :=
  fun s => (Ok tt, mkSt s.(lrn) (s.(trace) ++ [a])).

(** The framework: the result (or exception) of each call, and
    [hasattr(obj, name) and callable(getattr(obj, name))]. *)
Variable fw : FwCall -> Res Tensor.
Variable has_callable : Obj -> string -> bool.

Definition call (c : FwCall) : M Tensor :=
  fun s => (fw c, mkSt s.(lrn) (s.(trace) ++ [Fw c])).

Definition call_ (c : FwCall) : M unit := _ <- call c ;; ret tt.

(** [with ctx: body]: the exit runs also when the body raises. *)
Definition with_ctx {A} (enter exit : FwCall) (body : M A) : M A :=
  fun s => match call_ enter s with
           | (Exc e, s1) => (Exc e, s1)
           | (Ok _, s1) =>
               match body s1 with
               | (r, s2) => match call_ exit s2 with
                            | (Ok _, s3) => (r, s3)
                            | (Exc e, s3) => (Exc e, s3)
                            end
               end
           end.

(** The unit result of a framework call whose value Python discards. *)
Definition discard (r : Res Tensor) : Res unit :=
  match r with Ok _ => Ok tt | Exc e => Exc e end.

(** DefaultForwardCB.__call__ *)
Definition DefaultForwardCB (inputs : Tensor) : M Tensor :=
  l <- get_learner ;;
  v <- call (CModel l.(model) inputs) ;;
  l' <- get_learner ;;
  put_learner (set_preds l' v) ;;;
  l'' <- get_learner ;;
  ret l''.(preds).

(** DefaultGetLossCB.__call__ *)
Definition DefaultGetLossCB (p t : Tensor) : M Tensor :=
  l <- get_learner ;;
  v <- call (CLossFn l.(loss_fn) p t) ;;
  l' <- get_learner ;;
  put_learner (set_loss l' v) ;;;
  l'' <- get_learner ;;
  ret l''.(loss).

(** DefaultBackwardCB.__call__ *)
Definition DefaultBackwardCB : M unit :=
  l <- get_learner ;;
  match l.(accelerator) with
  | None => call_ (CLossBackward l.(loss))
  | Some a => call_ (CAccelBackward a l.(loss))
  end.

(** DefaultOptimizerStepCB.__call__ *)
Definition DefaultOptimizerStepCB (args : list Obj) : M unit :=
  l <- get_learner ;;
  call_ (COptStep l.(optimizer) args).

(** DefaultZeroGradCB.__call__ *)
Definition DefaultZeroGradCB : M unit :=
  l <- get_learner ;;
  call_ (COptZeroGrad l.(optimizer)).

(** DefaultSchedulerStepCB.__call__ *)
Definition DefaultSchedulerStepCB : M unit :=
  l <- get_learner ;;
  match l.(scheduler) with
  | Some s => call_ (CSchedStep s)
  | None => ret tt
  end.

(** DefaultTrainCB.__call__ *)
Definition DefaultTrainCB : M unit :=
  l <- get_learner ;;
  (if has_callable l.(model) "train" then call_ (CModelTrain l.(model)) else ret tt) ;;;
  (if has_callable l.(optimizer) "train" then call_ (COptTrain l.(optimizer)) else ret tt).

(** Modelled from the spec: the Learner's event dispatch (Learner.py and
    design/EventModel.py are not part of the sources).  "A dispatch table
    mapping event names to callback objects": calling [learner.<event>(...)]
    dispatches the event by name to the callback registered for it.  With
    the default callbacks registered, the table is the following. *)
Definition dispatch {A} (name : string) (cb : M A) : M A :=
  log (Ev name) ;;; cb.

Definition learner_train := dispatch "train" DefaultTrainCB.
Definition learner_forward x := dispatch "forward" (DefaultForwardCB x).
Definition learner_get_loss p t := dispatch "get_loss" (DefaultGetLossCB p t).
Definition learner_zero_grad := dispatch "zero_grad" DefaultZeroGradCB.
Definition learner_backward := dispatch "backward" DefaultBackwardCB.
Definition learner_optimizer_step := dispatch "optimizer_step" (DefaultOptimizerStepCB []).
Definition learner_scheduler_step := dispatch "scheduler_step" DefaultSchedulerStepCB.

(** DefaultOneBatchCB.__call__ *)
Definition DefaultOneBatchCB (inputs targets : Tensor) (train : bool) : M unit :=
  learner_train ;;;
  l <- get_learner ;;
  io <- (match l.(accelerator) with
         | None => i <- call (CTo inputs l.(device)) ;;
                   t <- call (CTo targets l.(device)) ;;
                   ret (i, t)
         | Some _ => ret (inputs, targets)
         end) ;;
  let '(inputs, targets) := io in
  let body :=
    learner_forward inputs ;;;
    l1 <- get_learner ;;
    learner_get_loss l1.(preds) targets ;;;
    (if train then
       learner_zero_grad ;;;
       learner_backward ;;;
       learner_optimizer_step ;;;
       learner_scheduler_step
     else ret tt) in
  if train then body else with_ctx CNoGradEnter CNoGradExit body.

End EventLoop.

Arguments Ok {Exn A} a.
Arguments Exc {Exn A} e.

(* ================================================================== *)
(** ** Raising and catching in torch_tools.py and jupyter_tools.py *)

Section Errors.

Context {Num Exn : Type}.

(** The exceptions that reach a caller: the library's own Python
    exceptions, keyboard interrupts, and any exception of the framework. *)
Inductive PyExn :=
  | ValueError (msg : string)
  | NotImplementedError (msg : string)
  | ZeroDivisionError (msg : string)
  | NameError (msg : string)
  | KeyboardInterrupt
  | FrameworkError (e : Exn).

Inductive PyRes (A : Type) :=
  | POk (a : A)
  | PRaise (e : PyExn).
Arguments POk {A} a.
Arguments PRaise {A} e.

(** Learning rate of every param group of an optimizer. *)
Definition groups := list Num.

(** set_lr *)
Definition set_lr (g : groups) (lr : Num) : groups := map (fun _ => lr) g.

(** change_lr *)
Definition change_lr (g : groups) (fn : Num -> Num) : groups := map fn g.

(** get_lr: [optimizer.param_groups[0]['lr']]; an optimizer has at least
    one param group, the default stands for the framework's IndexError. *)
Definition get_lr (dflt : Num) (g : groups) : Num := hd dflt g.

Variable mul add div : Num -> Num -> Num.
Variable gt : Num -> Num -> bool.
Variable minimum : list Num -> Num.
Variable dflt : Num.
(** [x == 0.0] on floats: dividing by such an [x] raises Python's
    ZeroDivisionError. *)
Variable is_zero : Num -> bool.

(** The loop of lr_finder_fn: [one_batch_fn k] is the outcome of the k-th
    call of the one-batch function (its loss, or the exception it raised,
    which is not caught).  [fuel] bounds the Python [while True] loop;
    [None] means the fuel ran out.  The stop test is Python's short-circuit
    [or]: [loss/min(losses)] is only evaluated when the [end] test is
    false, and raises ZeroDivisionError when [min(losses)] is 0. *)
Fixpoint lr_loop (fuel : nat) (one_batch_fn : nat -> PyRes Num) (k : nat)
    (mul_ add_ : Num) (end_ max_increase : option Num)
    (g : groups) (lrs losses : list Num)
    : option (groups * PyRes (list Num * list Num)) :=
  match fuel with
  | O => None
  | S fuel' =>
      match one_batch_fn k with
      | PRaise e => Some (g, PRaise e)
      | POk l =>
          let lrs' := lrs ++ [get_lr dflt g] in
          let losses' := losses ++ [l] in
          let g' := change_lr g (fun x => add (mul x mul_) add_) in
          if match end_ with Some e => gt (get_lr dflt g') e | None => false end
          then Some (g', POk (lrs', losses'))
          else match max_increase with
            | None => lr_loop fuel' one_batch_fn (S k) mul_ add_ end_ max_increase g' lrs' losses'
            | Some m =>
                let mn := minimum losses' in
                if is_zero mn then Some (g', PRaise (ZeroDivisionError "float division by zero"))
                else if gt (div l mn) m then Some (g', POk (lrs', losses'))
                else lr_loop fuel' one_batch_fn (S k) mul_ add_ end_ max_increase g' lrs' losses'
            end
      end
  end.

(** lr_finder_fn (with plot=False): the learning rates are set to [start]
    before the guard on [end] and [max_increase] runs.  (The source's
    message is in Russian; it is given here in English.) *)
Definition lr_finder_fn (fuel : nat) (one_batch_fn : nat -> PyRes Num)
    (g : groups) (start mul_ add_ : Num) (end_ max_increase : option Num)
    : option (groups * PyRes (list Num * list Num)) :=
  let g1 := set_lr g start in
  match end_, max_increase with
  | None, None =>
      Some (g1, PRaise (ValueError
        "Specify at least one of the arguments `end` or `max_increase`."))
  | _, _ => lr_loop fuel one_batch_fn 0 mul_ add_ end_ max_increase g1 [] []
  end.

(** The [try: for _ in range(niter): ... except KeyboardInterrupt: pass]
    of lr_finder: [iteration i] is the outcome of the i-th loop body (its
    [losses] and [lrs], of which the last entry is dropped).  A
    KeyboardInterrupt ends the loop and the function goes on with the
    iterations completed so far; any other exception propagates. *)
Fixpoint lr_finder_iters (niter : nat) (i : nat)
    (iteration : nat -> PyRes (list Num * list Num))
    (acc_losses acc_lrs : list (list Num))
    : PyRes (list (list Num) * list (list Num)) :=
  match niter with
  | O => POk (acc_losses, acc_lrs)
  | S n =>
      match iteration i with
      | PRaise KeyboardInterrupt => POk (acc_losses, acc_lrs)
      | PRaise e => PRaise e
      | POk (lrs, losses) =>
          lr_finder_iters n (S i) iteration
            (acc_losses ++ [removelast losses]) (acc_lrs ++ [removelast lrs])
      end
  end.





End Errors.

Arguments POk {Exn A} a.
Arguments PRaise {Exn A} e.

(* ================================================================== *)
(** ** State dicts: copy_state_dict, BackupModule and Trainer *)

Section StateDicts.

Context {V : Type}.

(** Tensor storages, addressed by location; a state dict holds references
    to them.  [v0] is read at a dangling location (never reached here). *)
Definition heap := list V.
Variable v0 : V.

Definition read (h : heap) (l : nat) : V := nth l h v0.

(** torch's [t.clone()]: a fresh storage holding the same contents. *)
Definition alloc (h : heap) (v : V) : heap * nat := (h ++ [v], List.length h).

(** In-place update of a storage by the framework ([param.add_(...)],
    [optimizer.step()], ...). *)
Fixpoint write (h : heap) (l : nat) (v : V) : heap :=
  match h, l with
  | [], _ => []
  | _ :: h', O => v :: h'
  | x :: h', S l' => x :: write h' l' v
  end.

(** A value of a state dict: a tensor (by reference), a nested dict, or
    any other Python value; a dict is its list of items in order. *)
Inductive SDVal :=
  | SDTensor (l : nat)
  | SDDict (d : SD)
  | SDOther (o : Z)
with SD :=
  | SDNil
  | SDCons (k : string) (v : SDVal) (rest : SD).

(** copy_state_dict: [v.detach().clone()] for a tensor, a recursive copy
    for a dict, [try_copy(v)] (a value copy) otherwise. *)
Fixpoint copy_val (h : heap) (v : SDVal) : heap * SDVal :=
  match v with
  | SDTensor l => let '(h', l') := alloc h (read h l) in (h', SDTensor l')
  | SDDict d => let '(h', d') := copy_state_dict h d in (h', SDDict d')
  | SDOther o => (h, SDOther o)
  end
with copy_state_dict (h : heap) (d : SD) : heap * SD :=
  match d with
  | SDNil => (h, SDNil)
  | SDCons k v rest =>
      let '(h1, v') := copy_val h v in
      let '(h2, rest') := copy_state_dict h1 rest in
      (h2, SDCons k v' rest')
  end.

(** The tensor references of a state dict, in order. *)
Fixpoint val_locs (v : SDVal) : list nat :=
  match v with
  | SDTensor l => [l]
  | SDDict d => sd_locs d
  | SDOther _ => []
  end
with sd_locs (d : SD) : list nat :=
  match d with
  | SDNil => []
  | SDCons _ v rest => val_locs v ++ sd_locs rest
  end.

(** [module.state_dict()]: the parameters and buffers by reference (the
    tensors of a state dict share storage with the module's tensors). *)
Definition state_dict (params : SD) : SD := params.

Record BackupModule := mkBackup { bm_model : SD; bm_state_dict : SD }.

(** BackupModule.__init__ *)
Definition BackupModule_init (h : heap) (params : SD) : heap * BackupModule :=
  let '(h', sd) := copy_state_dict h (state_dict params) in
  (h', mkBackup params sd).

(** The fields of a Trainer built with [save_best=True]:
    [self.best_model = self.model.state_dict()]. *)
Record Trainer := mkTrainer { tr_model : SD; tr_best_model : SD }.

Definition Trainer_init_save_best (params : SD) : Trainer :=
  mkTrainer params (state_dict params).

End StateDicts.

Scheme SDVal_mut := Induction for SDVal Sort Prop
  with SD_mut := Induction for SD Sort Prop.
Combined Scheme SD_combined from SDVal_mut, SD_mut.

(* ================================================================== *)
(** ** Recursive tensor helpers *)

Section TensorUtils.

Context {Tensor Device Flt Other : Type}.

(** The Python values the helpers dispatch on. *)
#[warnings="-register-all"]
Inductive PyVal :=
  | PTensor (t : Tensor)
  | PList (l : list PyVal)
  | PTuple (l : list PyVal)
  | PFloat (f : Flt)
  | POther (o : Other).

Variable tensor_to : Tensor -> Device -> Tensor.   (* x.to(device) *)
Variable detach : Tensor -> Tensor.                (* x.detach() *)
Variable cpu : Tensor -> Tensor.                   (* x.cpu() *)
Variable numel : Tensor -> Z.                      (* x.numel() *)
Variable to_float : Tensor -> Flt.                 (* float(x) *)

(** to_device: [device] is [None] or a device. *)
Fixpoint to_device (x : PyVal) (dev : option Device) : PyVal :=
  match dev with
  | None => x
  | Some d =>
      match x with
      | PTensor t => PTensor (tensor_to t d)
      | PList l | PTuple l => PList (map (fun i => to_device i dev) l)
      | _ => x
      end
  end.

Fixpoint smart_detach (x : PyVal) : PyVal :=
  match x with
  | PTensor t => PTensor (detach t)
  | PList l | PTuple l => PList (map smart_detach l)
  | _ => x
  end.

Fixpoint smart_to_cpu (x : PyVal) : PyVal :=
  match x with
  | PTensor t => PTensor (cpu t)
  | PList l | PTuple l => PList (map smart_to_cpu l)
  | _ => x
  end.

Fixpoint smart_detach_cpu (x : PyVal) : PyVal :=
  match x with
  | PTensor t => PTensor (cpu (detach t))
  | PList l | PTuple l => PList (map smart_detach_cpu l)
  | _ => x
  end.

Fixpoint smart_to_float (x : PyVal) : PyVal :=
  match x with
  | PTensor t => if numel t =? 1 then PFloat (to_float (cpu (detach t))) else x
  | PList l | PTuple l => PList (map smart_to_float l)
  | _ => x
  end.

(** How a helper [F] treats each kind of value: [op] on a tensor, a list
    (always a list) mapped elementwise for a list or a tuple, the value
    itself otherwise. *)
Definition dispatches (F : PyVal -> PyVal) (op : Tensor -> PyVal) : Prop :=
  (forall t, F (PTensor t) = op t) /\
  (forall l, F (PList l) = PList (map F l) /\ F (PTuple l) = PList (map F l)) /\
  (forall f, F (PFloat f) = PFloat f) /\
  (forall o, F (POther o) = POther o).

End TensorUtils.

(* ================================================================== *)
(** ** seeded_rng *)

Section Rng.

Context {RS Seed Exn : Type}.

(** The random generators a seed reaches: torch's CPU generator (read and
    written by [torch.random.get_rng_state]/[set_rng_state]), torch's
    generator of each CUDA device, numpy's and python's. *)
Record Rngs := mkRngs {
  torch_cpu : RS;
  torch_cuda : list RS;
  numpy_rng : RS;
  python_rng : RS
}.

(** The generator states that seeding with [seed] produces. *)
Variable seeded_torch seeded_cuda seeded_numpy seeded_python : Seed -> RS.

(** torch.manual_seed: "Sets the seed for generating random numbers on all
    devices", the CPU generator and (through torch.cuda.manual_seed_all)
    every CUDA generator. *)
Definition manual_seed (sd : Seed) (r : Rngs) : Rngs :=
  mkRngs (seeded_torch sd) (map (fun _ => seeded_cuda sd) r.(torch_cuda))
         r.(numpy_rng) r.(python_rng).

Definition np_seed (sd : Seed) (r : Rngs) : Rngs :=
  mkRngs r.(torch_cpu) r.(torch_cuda) (seeded_numpy sd) r.(python_rng).

Definition random_seed (sd : Seed) (r : Rngs) : Rngs :=
  mkRngs r.(torch_cpu) r.(torch_cuda) r.(numpy_rng) (seeded_python sd).

Definition set_rng_state (t : RS) (r : Rngs) : Rngs :=
  mkRngs t r.(torch_cuda) r.(numpy_rng) r.(python_rng).
Definition np_set_state (t : RS) (r : Rngs) : Rngs :=
  mkRngs r.(torch_cpu) r.(torch_cuda) t r.(python_rng).
Definition random_setstate (t : RS) (r : Rngs) : Rngs :=
  mkRngs r.(torch_cpu) r.(torch_cuda) r.(numpy_rng) t.

(** The body of a [with] block: it returns normally ([inl]) or raises. *)
Definition Body (A : Type) := Rngs -> (A + Exn) * Rngs.

(** [with seeded_rng(seed): body].  The generator-based context manager
    has no try/finally: an exception raised by the body is thrown in at
    the [yield] and propagates, skipping the restoring lines. *)
Definition seeded_rng {A} (seed : option Seed) (body : Body A) : Body A :=
  fun r =>
    match seed with
    | None => body r
    | Some sd =>
        let torch_state := r.(torch_cpu) in
        let numpy_state := r.(numpy_rng) in
        let python_state := r.(python_rng) in
        let r1 := random_seed sd (np_seed sd (manual_seed sd r)) in
        match body r1 with
        | (inl a, r2) =>
            (inl a, random_setstate python_state
                      (np_set_state numpy_state (set_rng_state torch_state r2)))
        | (inr e, r2) => (inr e, r2)
        end
    end.

End Rng.

(* ================================================================== *)
(** ** FreezeModel *)

Section Freeze.

(** The [requires_grad] flag of every parameter object, by identity, and a
    model's [parameters()]: the identities it yields, in order. *)
Definition flags := nat -> bool.

Definition set_flag (h : flags) (p : nat) (b : bool) : flags :=
  fun q => if Nat.eqb q p then b else h q.

Record FreezeModel := mkFreeze {
  original_requires_grads : list bool;
  fm_model : list nat;
  frozen : bool
}.

(** The loop of FreezeModel.__init__: record the flag, then clear it. *)
Fixpoint freeze_loop (h : flags) (ps : list nat) (orig : list bool)
    : flags * list bool :=
  match ps with
  | [] => (h, orig)
  | p :: ps' => freeze_loop (set_flag h p false) ps' (orig ++ [h p])
  end.

Definition FreezeModel_init (h : flags) (params : list nat) : flags * FreezeModel :=
  let '(h', orig) := freeze_loop h params [] in
  (h', mkFreeze orig params true).

(** The loop of unfreeze: [param.requires_grad = original_requires_grads[i]]
    for the i-th parameter; [None] is the IndexError when the model yields
    more parameters than were recorded. *)
Fixpoint unfreeze_loop (h : flags) (ps : list nat) (orig : list bool) (i : nat)
    : option flags :=
  match ps with
  | [] => Some h
  | p :: ps' =>
      match nth_error orig i with
      | Some b => unfreeze_loop (set_flag h p b) ps' orig (S i)
      | None => None
      end
  end.

(** FreezeModel.unfreeze, with [params] what [self.model.parameters()]
    yields at that call. *)
Definition unfreeze (h : flags) (fm : FreezeModel) (params : list nat)
    : option (flags * FreezeModel) :=
  match unfreeze_loop h params fm.(original_requires_grads) 0 with
  | Some h' => Some (h', mkFreeze fm.(original_requires_grads) fm.(fm_model) false)
  | None => None
  end.

(** Whether [q] is among the parameters [ps]. *)
Definition in_params (ps : list nat) (q : nat) : bool := existsb (Nat.eqb q) ps.

End Freeze.

(* ================================================================== *)
(** ** map_to_base *)

(** [torch.arange(top, -1, -1)]: top, top-1, ..., 0. *)
Fixpoint arange_down (n : nat) : list Z :=
  match n with
  | O => [0]
  | S n' => Z.of_nat n :: arange_down n'
  end.

(** map_to_base, for an integer [number >= 0] and [base >= 2].  [top] is
    the value of [int(math.log(number) / math.log(base))], computed by the
    source in floating point; it is a parameter here, the float logarithm
    being outside the model.  Python's [//] and [%] on non-negative
    operands are [Z.div] and [Z.modulo]. *)
Definition map_to_base (number base : Z) (top : nat) : list Z :=
  if number =? 0 then [0]
  else map (fun e => (number / base ^ e) mod base) (arange_down top).

(** Positional value of a digit list, most significant digit first. *)
Definition eval_digits (base : Z) (ds : list Z) : Z :=
  fold_left (fun acc d => acc * base + d) ds 0.

(** The names of the learner events in a trace, and among them the
    training-loop phases forward, loss, backward, optimizer step and
    scheduler step. *)
Definition event_names {Tensor Obj : Type} (tr : list (@Action Tensor Obj)) : list string :=
  flat_map (fun a => match a with Ev n => [n] | Fw _ => [] end) tr.

Definition is_phase (n : string) : bool :=
  existsb (String.eqb n)
    ["forward"; "get_loss"; "backward"; "optimizer_step"; "scheduler_step"]%string.

Definition phase_names {Tensor Obj : Type} (tr : list (@Action Tensor Obj)) : list string :=
  filter is_phase (event_names tr).

(* ================================================================== *)
(** ** Further helpers of torch_tools.py *)

(** Whether a value holds a tuple at some depth. *)
Fixpoint no_tuple {Tensor Flt Other : Type} (x : @PyVal Tensor Flt Other) : bool :=
  match x with
  | PTuple _ => false
  | PList l => forallb no_tuple l
  | _ => true
  end.


(** [zip_longest( *ls)]: the k-th tuple holds the k-th element of every list,
    or None where a list is shorter; as many tuples as the longest list. *)
Definition max_length {A} (ls : list (list A)) : nat :=
  fold_right (fun l m => Nat.max (List.length l) m) 0%nat ls.

Definition zip_longest {A} (ls : list (list A)) : list (list (option A)) :=
  map (fun k => map (fun l => nth_error l k) ls) (seq 0 (max_length ls)).

(** [[j for j in i if j is not None]] *)
Definition somes {A} (i : list (option A)) : list A :=
  flat_map (fun o => match o with Some j => [j] | None => [] end) i.

Section LrFinderTail.

Context {Num : Type}.
Variable zero : Num.
Variable add : Num -> Num -> Num.
(** [x / n] for a float [x] and an int [n > 0]. *)
Variable div_nat : Num -> nat -> Num.

(** [sum(i)], which starts from 0. *)
Definition py_sum (i : list Num) : Num := fold_left add i zero.

(** The end of lr_finder: the losses of the completed iterations averaged
    position by position over the iterations that reached that position,
    and the learning rates of the first iteration ([i[0]], None where the
    first iteration is shorter than the longest one). *)
Definition lr_finder_average (iter_losses iter_lrs : list (list Num))
    : list Num * list (option Num) :=
  let avg_losses := map somes (zip_longest iter_losses) in
  let avg_losses := map (fun i => div_nat (py_sum i) (List.length i)) avg_losses in
  let lrs := map (fun i => hd None i) (zip_longest iter_lrs) in
  (avg_losses, lrs).

End LrFinderTail.

Section LrFinderTop.

Context {Num Exn Model : Type}.
Variable zero : Num.
Variable add : Num -> Num -> Num.
Variable div_nat : Num -> nat -> Num.
(** [<] on floats, and [float("inf")]. *)
Variable lt : Num -> Num -> bool.
Variable inf : Num.




End LrFinderTop.




(** ** area_around *)

(** Python's slice [a:b] on an axis of length [n]: negative bounds count
    from the end, bounds beyond the axis are cut to it. *)
Definition slice_norm (n a : Z) : Z :=
  if a <? 0 then Z.max 0 (a + n) else Z.min a n.

Definition py_slice_len (n a b : Z) : Z := Z.max 0 (slice_norm n b - slice_norm n a).

Definition py_slice {A} (l : list A) (a b : Z) : list A :=
  let n := Z.of_nat (List.length l) in
  firstn (Z.to_nat (slice_norm n b - slice_norm n a)) (skipn (Z.to_nat (slice_norm n a)) l).

(** [int(s/2)]: true division, then truncation toward zero. *)
Definition int_half (s : Z) : Z := Z.quot s 2.

(** The two shifts of the centre of one axis in area_around. *)
Definition clamp_axis (x sx n : Z) : Z :=
  let x := if x - sx <? 0 then x - (x - sx) else x in
  if x + sx + 1 >? n then x - (x + sx + 1 - n) else x.

(** The slice [int(x-sx):int(x+sx)] of one axis (integer coordinates). *)
Definition axis_bounds (x s n : Z) : Z * Z :=
  let sx := int_half s in
  let x := clamp_axis x sx n in
  (x - sx, x + sx).

Definition axis_len (x s n : Z) : Z :=
  let '(a, b) := axis_bounds x s n in py_slice_len n a b.

(** How many leading axes area_around keeps whole ([tensor[:, ...]]), by
    the number of coordinates and [tensor.ndim]; None is the
    NotImplementedError branch. *)
Definition lead_dims (ncoord ndim : nat) : option nat :=
  if Nat.eqb ncoord 3 then
    if Nat.eqb ndim 3 then Some 0%nat else if Nat.eqb ndim 4 then Some 1%nat else None
  else
    if Nat.eqb ndim 2 then Some 0%nat else if Nat.eqb ndim 3 then Some 1%nat
    else if Nat.eqb ndim 4 then Some 2%nat else None.

(** area_around on a tensor of shape [shape], with integer coordinates:
    the shape of the returned slice.  [sx, sy, sz = size] raises a
    ValueError when [size] has another length. *)
Definition area_around_shape {Exn} (shape coord size : list Z) : @PyRes Exn (list Z) :=
  let ncoord := List.length coord in
  if Nat.eqb ncoord 3 || Nat.eqb ncoord 2 then
    if Nat.eqb (List.length size) ncoord then
      match lead_dims ncoord (List.length shape) with
      | None => PRaise (NotImplementedError "")
      | Some k =>
          POk (firstn k shape ++
               map (fun '(xs, n) => axis_len (fst xs) (snd xs) n)
                   (combine (combine coord size) (skipn k shape)))
      end
    else PRaise (ValueError "unpack")
  else PRaise (NotImplementedError "").


(** ** stepchunk *)

(** [l[::c]] for a step [c > 0]: the elements at indices 0, c, 2c, ...;
    [fuel] is the length of the list. *)
Fixpoint every_nth_aux {A} (fuel : nat) (c : nat) (l : list A) : list A :=
  match fuel with
  | O => []
  | S f => match l with [] => [] | x :: _ => x :: every_nth_aux f c (skipn c l) end
  end.

Definition every_nth {A} (c : nat) (l : list A) : list A := every_nth_aux (List.length l) c l.

(** [a[i:j:c]] with a step [c > 0] is [a[i:j][::c]]. *)
Definition py_slice_step {A} (l : list A) (i j : Z) (c : nat) : list A :=
  every_nth c (py_slice l i j).

(** [maxlength or vec.shape[0]]: None and 0 are falsy. *)
Definition maxlength_or (len : nat) (maxlength : option Z) : Z :=
  match maxlength with
  | None => Z.of_nat len
  | Some k => if k =? 0 then Z.of_nat len else k
  end.

(** stepchunk on the first axis of [vec]. *)
Definition stepchunk {A} (vec : list A) (chunks : Z) (maxlength : option Z) : list (list A) :=
  let maxlength := maxlength_or (List.length vec) maxlength in
  map (fun i => py_slice_step vec i (i + maxlength) (Z.to_nat chunks))
      (map Z.of_nat (seq 0 (Z.to_nat chunks))).


(** ** binary_erode3d *)

(** A 3D integer tensor as nested lists [t[i][j][k]]; reading outside it
    gives 0, which is also the zero padding of [conv3d(..., padding=1)]. *)
Definition at3 (t : list (list (list Z))) (i j k : Z) : Z :=
  if (i <? 0) || (j <? 0) || (k <? 0) then 0
  else nth (Z.to_nat k) (nth (Z.to_nat j) (nth (Z.to_nat i) t []) []) 0.

(** The kernel of binary_erode3d, as written in the source. *)
Definition erode_kernel : list (list (list Z)) :=
  [[[0;0;0];[0;1;0];[0;0;0]];[[0;1;0];[1;1;1];[0;1;0]];[[0;0;0];[0;1;0];[0;0;0]]].

(** [conv3d(input=tensor.unsqueeze(0), weight=kernel, padding=1)] at
    (i, j, k) of its only channel: a cross-correlation with the 3x3x3
    kernel over the zero-padded tensor. *)
Definition conv3d_pad1 (t : list (list (list Z))) (i j k : Z) : Z :=
  fold_left (fun acc a =>
    fold_left (fun acc b =>
      fold_left (fun acc c =>
        acc + at3 erode_kernel a b c * at3 t (i + a - 1) (j + b - 1) (k + c - 1))
        [0; 1; 2] acc)
      [0; 1; 2] acc)
    [0; 1; 2] 0.

(** One erosion: [torch.where(convolved == 7, 1, 0)[0]], same shape as [t]. *)
Definition erode_once (t : list (list (list Z))) : list (list (list Z)) :=
  let D := List.length t in
  let H := List.length (hd [] t) in
  let W := List.length (hd [] (hd [] t)) in
  map (fun i => map (fun j => map (fun k =>
         if conv3d_pad1 t (Z.of_nat i) (Z.of_nat j) (Z.of_nat k) =? 7 then 1 else 0)
       (seq 0 W)) (seq 0 H)) (seq 0 D).

(** binary_erode3d(tensor, n): [if n > 1: tensor = binary_erode3d(tensor, n-1)],
    then one erosion. *)
Fixpoint binary_erode3d_nat (n : nat) (t : list (list (list Z))) : list (list (list Z)) :=
  erode_once (match n with S ((S _) as m) => binary_erode3d_nat m t | _ => t end).

Definition binary_erode3d (t : list (list (list Z))) (n : Z) : list (list (list Z)) :=
  binary_erode3d_nat (Z.to_nat n) t.

(** A D x H x W tensor of zeros and ones. *)
Definition binary3 (t : list (list (list Z))) (D H W : nat) : Prop :=
  List.length t = D /\
  Forall (fun p => List.length p = H /\
           Forall (fun r => List.length r = W /\ Forall (fun v => v = 0 \/ v = 1) r) p) t.


(** A 3 x 3 x 3 block of ones. *)
Definition ones3 : list (list (list Z)) := repeat (repeat (repeat 1 3) 3) 3.


(** count_parameters: [sum([p.numel() for p in model.parameters() if p.requires_grad])]. *)
Definition count_parameters (numel : nat -> Z) (h : flags) (ps : list nat) : Z :=
  py_sum 0 Z.add (map numel (filter h ps)).


(** ** One epoch and the epoch schedule of fit *)

Section EpochLoop.

Context {Tensor Obj Exn : Type}.
Variable fw : @FwCall Tensor Obj -> @Res Exn Tensor.
Variable has_callable : Obj -> string -> bool.

Local Notation "x <- m ;; k" := (bind m (fun x => k))
  (at level 61, m at next level, right associativity).
Local Notation "m ;;; k" := (bind m (fun _ => k))
  (at level 61, right associativity).

Definition set_cur_batch (l : @Learner Tensor Obj) (i : Z) : Learner :=
  mkLearner l.(model) l.(loss_fn) l.(optimizer) l.(scheduler) l.(accelerator)
    l.(device) l.(preds) l.(loss) i l.(cur_epoch) l.(total_epoch).

(** [learner.one_batch(inputs, targets, train=train)], dispatched by name
    to DefaultOneBatchCB (see [dispatch]). *)
Definition learner_one_batch (inputs targets : Tensor) (train : bool) : M unit :=
  dispatch "one_batch" (DefaultOneBatchCB fw has_callable inputs targets train).

(** The loop of DefaultOneEpochCB.__call__:
    [for learner.cur_batch, (inputs, targets) in enumerate(dl)]. *)
Fixpoint one_epoch_loop (i : Z) (dl : list (Tensor * Tensor)) (train : bool) : M unit :=
  match dl with
  | [] => ret tt
  | (inputs, targets) :: dl' =>
      l <- get_learner ;;
      put_learner (set_cur_batch l i) ;;;
      learner_one_batch inputs targets train ;;;
      one_epoch_loop (i + 1) dl' train
  end.

Definition DefaultOneEpochCB (dl : list (Tensor * Tensor)) (train : bool) : M unit :=
  one_epoch_loop 0 dl train.

End EpochLoop.

(** One epoch of DefaultFitCB: the calls [learner.one_epoch(dl, train=...)]
    it makes, as their train flags in order, and whether it raised the
    ZeroDivisionError of [learner.cur_epoch % test_every] with
    [test_every = 0] (evaluated only when [dltest is not None]). *)
Definition fit_epoch (cur_epoch : Z) (has_train has_test test_first : bool)
    (test_every : Z) : list bool * bool :=
  let first := if (cur_epoch =? 0) && test_first && has_test then [false] else [] in
  let tr := if has_train then [true] else [] in
  if has_test then
    if test_every =? 0 then (first ++ tr, true)
    else (first ++ tr ++ (if cur_epoch mod test_every =? 0 then [false] else []), false)
  else (first ++ tr, false).

(** DefaultFitCB over [epochs_iterator]: the one_epoch calls of all epochs,
    the final [total_epoch] (incremented at the end of each epoch) and
    whether an exception ended the loop. *)
Fixpoint fit_calls (epochs : list Z) (has_train has_test test_first : bool)
    (test_every total : Z) : list bool * Z * bool :=
  match epochs with
  | [] => ([], total, false)
  | e :: es =>
      let '(cs, raised) := fit_epoch e has_train has_test test_first test_every in
      if raised then (cs, total, true)
      else
        let '(rest, total', raised') :=
          fit_calls es has_train has_test test_first test_every (total + 1) in
        (cs ++ rest, total', raised')
  end.


(** ** seeded_randperm *)

Section SeededRandperm.

Context {RS Seed Exn : Type}.
Variable seeded_torch seeded_cuda seeded_numpy seeded_python : Seed -> RS.
(** [torch.randperm(n)] on the CPU: drawn from the CPU generator, which
    it advances. *)
Variable randperm : nat -> RS -> list nat * RS.

Definition randperm_body (n : nat) : @Body RS Exn (list nat) :=
  fun r => let '(p, t) := randperm n r.(torch_cpu) in (inl p, set_rng_state t r).

(** seeded_randperm: [with seeded_rng(seed): return torch.randperm(n, ...)];
    the [return] leaves the block normally, so the context manager's exit
    code runs. *)
Definition seeded_randperm (n : nat) (seed : option Seed) : @Body RS Exn (list nat) :=
  seeded_rng seeded_torch seeded_cuda seeded_numpy seeded_python seed (randperm_body n).

End SeededRandperm.


(** ** Trainer with save_best *)

Section TrainerSaveBest.

Context {Num : Type}.
(** Python's [<] on the loss values, and [float('inf')]. *)
Variable lt : Num -> Num -> bool.
Variable inf : Num.

(** The save_best fields of a Trainer. *)
Record SaveBest := mkSaveBest {
  sb_model : SD;
  sb_losses : list Num;
  sb_lowest_loss : Num;
  sb_best_model : SD
}.

(** Trainer.__init__ with [save_best=True]. *)
Definition SaveBest_init (params : SD) : SaveBest :=
  mkSaveBest params [] inf (state_dict params).

(** The save_best block of Trainer.one_batch, with [loss_value] the
    framework's [loss.cpu().detach()]. *)
Definition save_best_step (t : SaveBest) (loss_value : Num) : SaveBest :=
  let t := if lt loss_value t.(sb_lowest_loss)
           then mkSaveBest t.(sb_model) t.(sb_losses) loss_value (state_dict t.(sb_model))
           else t in
  mkSaveBest t.(sb_model) (t.(sb_losses) ++ [loss_value]) t.(sb_lowest_loss) t.(sb_best_model).

Definition save_best_run (t : SaveBest) (loss_values : list Num) : SaveBest :=
  fold_left save_best_step loss_values t.

End TrainerSaveBest.


(** ** BackupModule.restore *)

Section Restore.

Context {V : Type}.
Variable v0 : V.

(** Modelled from torch's [Module.load_state_dict] (strict): the module's
    state dict and the given one have the same keys in the same order, and
    every tensor of the module is overwritten in place with the value of
    the tensor under the same key ([param.copy_(input_param)]); a key
    mismatch is an error ([None]). *)
Fixpoint load_val (h : heap) (dst src : SDVal) : option heap :=
  match dst, src with
  | SDTensor l, SDTensor l' => Some (write h l (read v0 h l'))
  | SDDict d, SDDict d' => load_sd h d d'
  | SDOther _, SDOther _ => Some h
  | _, _ => None
  end
with load_sd (h : heap) (dst src : SD) : option heap :=
  match dst, src with
  | SDNil, SDNil => Some h
  | SDCons k v rest, SDCons k' v' rest' =>
      if String.eqb k k' then
        match load_val h v v' with
        | Some h1 => load_sd h1 rest rest'
        | None => None
        end
      else None
  | _, _ => None
  end.

(** BackupModule.restore():
    [model.load_state_dict(copy_state_dict(self.state_dict))]. *)
Definition BackupModule_restore (h : heap) (bm : BackupModule) : option heap :=
  let '(h1, sd) := copy_state_dict v0 h bm.(bm_state_dict) in
  load_sd h1 (state_dict bm.(bm_model)) sd.

End Restore.

(** Two state dicts with the same keys, nesting and kinds of values. *)
Fixpoint shape_val (a b : SDVal) : Prop :=
  match a, b with
  | SDTensor _, SDTensor _ => True
  | SDDict d, SDDict d' => shape_sd d d'
  | SDOther _, SDOther _ => True
  | _, _ => False
  end
with shape_sd (a b : SD) : Prop :=
  match a, b with
  | SDNil, SDNil => True
  | SDCons k v r, SDCons k' v' r' => k = k' /\ shape_val v v' /\ shape_sd r r'
  | _, _ => False
  end.


(** Concrete inputs: a framework whose every call succeeds, a Learner, and
    a model state dict with one parameter tensor. *)
Definition fw_ok (c : @FwCall Z Z) : @Res unit Z := Ok 0.

Definition learner0 : @Learner Z Z := mkLearner 1 2 3 (Some 4) None 5 0 0 0 0 0.

Definition params1 : SD := SDCons "weight" (SDTensor 0) SDNil.

(* ================================================================== *)
(** * Theorems *)

Section EventLoopProofs.

Context {Tensor Obj Exn : Type}.
Variable fw : @FwCall Tensor Obj -> @Res Exn Tensor.
Variable has_callable : Obj -> string -> bool.

Ltac split_fw :=
  repeat (simpl in *;
          match goal with
          | H : context [match fw ?c with _ => _ end] |- _ =>
              let E := fresh "E" in destruct (fw c) eqn:E
          | H : context [if has_callable ?o ?n then _ else _] |- _ =>
              destruct (has_callable o n)
          end).

Ltac unfold_loop :=
  unfold DefaultOneBatchCB, learner_train, learner_forward, learner_get_loss,
    learner_zero_grad, learner_backward, learner_optimizer_step,
    learner_scheduler_step, dispatch, DefaultTrainCB, DefaultForwardCB,
    DefaultGetLossCB, DefaultZeroGradCB, DefaultBackwardCB,
    DefaultOptimizerStepCB, DefaultSchedulerStepCB, with_ctx, call_, call,
    bind, ret, log, get_learner, put_learner in *.

Lemma event_names_app (t1 t2 : list (@Action Tensor Obj)) :
  event_names (t1 ++ t2) = event_names t1 ++ event_names t2.
Proof. unfold event_names. apply flat_map_app. Qed.

(** C1: a batch run by DefaultOneBatchCB that returns normally dispatches,
    with train=True, the events train, forward, get_loss, zero_grad,
    backward, optimizer_step, scheduler_step, and with train=False only
    train, forward and get_loss; hence the training-loop phases are forward,
    loss, backward, optimizer step and scheduler step, each once and in this
    order, with train=True, and forward and loss only with train=False. *)
Theorem one_batch_phases (inputs targets : Tensor) (train : bool)
    (s s' : @St Tensor Obj) :
  DefaultOneBatchCB fw has_callable inputs targets train s = (Ok tt, s') ->
  exists added,
    s'.(trace) = s.(trace) ++ added /\
    event_names added =
      (if train
       then ["train"; "forward"; "get_loss"; "zero_grad"; "backward";
             "optimizer_step"; "scheduler_step"]
       else ["train"; "forward"; "get_loss"])%string /\
    phase_names added =
      (if train
       then ["forward"; "get_loss"; "backward"; "optimizer_step"; "scheduler_step"]
       else ["forward"; "get_loss"])%string.
Proof.
  intros H. destruct s as [[] tr]. unfold_loop.
  destruct train, accelerator0, scheduler0;
    split_fw; try discriminate;
    inversion H; subst; cbn;
    (eexists; split; [rewrite <- ?app_assoc; reflexivity |]);
    unfold phase_names; rewrite ?event_names_app; cbn; split; reflexivity.
Qed.

(** C2: DefaultBackwardCB, DefaultOptimizerStepCB and DefaultSchedulerStepCB
    make exactly one framework call each (loss.backward() without an
    accelerator, accelerator.backward(loss) with one; optimizer.step(args);
    scheduler.step() only when the scheduler is not None, nothing otherwise),
    return what that call returns (or raises), and leave every Learner
    attribute as it was. *)
Theorem default_step_callbacks_frame (s : @St Tensor Obj) (args : list Obj) :
  let l := s.(lrn) in
  let c := match l.(accelerator) with
           | None => CLossBackward l.(loss)
           | Some a => CAccelBackward a l.(loss)
           end in
  (DefaultBackwardCB fw s = (discard (fw c), mkSt l (s.(trace) ++ [Fw c]))) /\
  (DefaultOptimizerStepCB fw args s =
    (discard (fw (COptStep l.(optimizer) args)),
     mkSt l (s.(trace) ++ [Fw (COptStep l.(optimizer) args)]))) /\
  (DefaultSchedulerStepCB fw s =
    match l.(scheduler) with
    | Some sc => (discard (fw (CSchedStep sc)), mkSt l (s.(trace) ++ [Fw (CSchedStep sc)]))
    | None => (Ok tt, s)
    end).
Proof.
  destruct s as [[] tr]; cbn.
  unfold DefaultBackwardCB, DefaultOptimizerStepCB, DefaultSchedulerStepCB,
    call_, call, bind, ret, get_learner, discard; cbn.
  split; [| split].
  - destruct accelerator0; cbn; destruct (fw _); reflexivity.
  - destruct (fw _); reflexivity.
  - destruct scheduler0; cbn; [destruct (fw _)|]; reflexivity.
Qed.

(** C3: DefaultForwardCB stores learner.model(inputs) in learner.preds and
    returns it, and DefaultGetLossCB stores learner.loss_fn(preds, targets)
    in learner.loss and returns it; no other attribute changes ([set_preds]
    and [set_loss] replace that one field).  When the framework call raises,
    the exception propagates and the Learner is unchanged. *)
Theorem forward_get_loss_store (s : @St Tensor Obj) (inputs p t : Tensor) :
  let l := s.(lrn) in
  (DefaultForwardCB fw inputs s =
    (let c := CModel l.(model) inputs in
     match fw c with
     | Ok v => (Ok v, mkSt (set_preds l v) (s.(trace) ++ [Fw c]))
     | Exc e => (Exc e, mkSt l (s.(trace) ++ [Fw c]))
     end)) /\
  (DefaultGetLossCB fw p t s =
    (let c := CLossFn l.(loss_fn) p t in
     match fw c with
     | Ok v => (Ok v, mkSt (set_loss l v) (s.(trace) ++ [Fw c]))
     | Exc e => (Exc e, mkSt l (s.(trace) ++ [Fw c]))
     end)).
Proof.
  destruct s as [[] tr]; cbn.
  unfold DefaultForwardCB, DefaultGetLossCB, call, bind, ret,
    get_learner, put_learner; cbn.
  split; destruct (fw _); reflexivity.
Qed.

End EventLoopProofs.

Lemma one_batch_phases_witness :
  exists s',
    DefaultOneBatchCB fw_ok (fun _ _ => true) 7 8 true (mkSt learner0 []) = (Ok tt, s') /\
    exists added,
      s'.(trace) = [] ++ added /\
      event_names added =
        ["train"; "forward"; "get_loss"; "zero_grad"; "backward";
         "optimizer_step"; "scheduler_step"]%string /\
      phase_names added =
        ["forward"; "get_loss"; "backward"; "optimizer_step"; "scheduler_step"]%string.
Proof.
  exists (snd (DefaultOneBatchCB fw_ok (fun _ _ => true) 7 8 true (mkSt learner0 []))).
  split.
  - vm_compute. reflexivity.
  - apply (one_batch_phases fw_ok (fun _ _ => true) 7 8 true (mkSt learner0 [])).
    vm_compute. reflexivity.
Defined.

Section ErrorProofs.

Context {Num Exn : Type}.
Variable mul add div : Num -> Num -> Num.
Variable gt : Num -> Num -> bool.
Variable minimum : list Num -> Num.
Variable dflt : Num.
Variable is_zero : Num -> bool.



End ErrorProofs.



Section StateDictProofs.

Local Open Scope nat_scope.
Context {V : Type}.
Variable v0 : V.

Lemma read_app (h e : @heap V) l : l < List.length h -> read v0 (h ++ e) l = read v0 h l.
Proof. intros Hl. unfold read. apply app_nth1. exact Hl. Qed.

Lemma read_write_other (h : @heap V) l q v : q <> l -> read v0 (write h l v) q = read v0 h q.
Proof.
  unfold read. revert l q. induction h as [| x h IH]; intros l q Hq; [reflexivity |].
  destruct l, q; cbn; try reflexivity; [congruence |]. apply IH. congruence.
Qed.

Definition copy_ok (h h' : @heap V) (src dst : list nat) : Prop :=
  (exists ext, h' = h ++ ext) /\
  Forall (fun l => List.length h <= l < List.length h')%nat dst /\
  map (read v0 h') dst = map (read v0 h) src.

Lemma Forall_read_app (h e : @heap V) ls :
  Forall (fun l => l < List.length h)%nat ls -> map (read v0 (h ++ e)) ls = map (read v0 h) ls.
Proof.
  intros HF. apply map_ext_in. intros l Hin.
  apply read_app. rewrite Forall_forall in HF. apply HF, Hin.
Qed.

Lemma copy_state_dict_fresh :
  (forall v h h' v', copy_val v0 h v = (h', v') ->
     Forall (fun l => l < List.length h)%nat (val_locs v) ->
     copy_ok h h' (val_locs v) (val_locs v')) /\
  (forall d h h' d', copy_state_dict v0 h d = (h', d') ->
     Forall (fun l => l < List.length h)%nat (sd_locs d) ->
     copy_ok h h' (sd_locs d) (sd_locs d')).
Proof.
  apply SD_combined.
  - (* a tensor: cloned into a fresh storage *)
    intros l h h' v' H HF. simpl in H. inversion H; subst. clear H.
    unfold copy_ok. cbn. rewrite length_app. cbn.
    inversion HF; subst.
    split; [eexists; reflexivity |]. split.
    + constructor; [lia | constructor].
    + f_equal. unfold read. rewrite app_nth2 by lia.
      rewrite Nat.sub_diag. reflexivity.
  - (* a nested dict *)
    intros d IH h h' v' H HF. simpl in H.
    destruct (copy_state_dict v0 h d) as [h1 d1] eqn:E. inversion H; subst.
    exact (IH _ _ _ E HF).
  - (* any other value *)
    intros o h h' v' H _. simpl in H. inversion H; subst.
    split; [exists []; rewrite app_nil_r; reflexivity | split; [constructor | reflexivity]].
  - intros h h' d' H _. simpl in H. inversion H; subst.
    split; [exists []; rewrite app_nil_r; reflexivity | split; [constructor | reflexivity]].
  - intros k v IHv rest IHr h h' d' H HF. simpl in H.
    destruct (copy_val v0 h v) as [h1 v1] eqn:E1.
    destruct (copy_state_dict v0 h1 rest) as [h2 r2] eqn:E2.
    inversion H; subst. clear H. simpl in HF. cbn.
    apply Forall_app in HF as [HFv HFr].
    destruct (IHv _ _ _ E1 HFv) as [[e1 ->] [Hl1 Hm1]].
    assert (HFr' : Forall (fun l => l < List.length (h ++ e1))%nat (sd_locs rest)).
    { eapply Forall_impl; [| exact HFr]. intros l Hl. simpl in Hl.
      rewrite length_app. lia. }
    destruct (IHr _ _ _ E2 HFr') as [[e2 ->] [Hl2 Hm2]].
    split; [exists (e1 ++ e2); rewrite app_assoc; reflexivity |]. split.
    + apply Forall_app. split.
      * eapply Forall_impl; [| exact Hl1]. intros l Hl. simpl in Hl.
        rewrite !length_app in *. lia.
      * eapply Forall_impl; [| exact Hl2]. intros l Hl. simpl in Hl.
        rewrite !length_app in *. lia.
    + rewrite !map_app. f_equal.
      * rewrite Forall_read_app; [exact Hm1 |].
        eapply Forall_impl; [| exact Hl1]. intros l Hl. simpl in Hl. lia.
      * rewrite Hm2. apply Forall_read_app. exact HFr.
Qed.

(** C5 (amended): BackupModule keeps an independent deep copy.  Built from
    a model whose state dict references existing tensors, it keeps the model
    by reference and a state dict whose tensors are all fresh storages
    (allocated after every tensor that existed before, so none of them is a
    tensor of the model) holding the same values; an in-place update of any
    tensor that existed before does not reach the backup.  A Trainer built
    with save_best keeps [best_model = model.state_dict()], which references
    the model's own tensors. *)
Theorem backup_deep_copy (h : @heap V) (params : SD) (h' : @heap V) (bm : BackupModule) :
  Forall (fun l => l < List.length h) (sd_locs params) ->
  BackupModule_init v0 h params = (h', bm) ->
  bm.(bm_model) = params /\
  (exists ext, h' = h ++ ext) /\
  Forall (fun l => List.length h <= l < List.length h') (sd_locs bm.(bm_state_dict)) /\
  map (read v0 h') (sd_locs bm.(bm_state_dict)) = map (read v0 h) (sd_locs params) /\
  (forall l v, l < List.length h ->
     map (read v0 (write h' l v)) (sd_locs bm.(bm_state_dict))
     = map (read v0 h') (sd_locs bm.(bm_state_dict))) /\
  sd_locs (Trainer_init_save_best params).(tr_best_model) = sd_locs params.
Proof.
  intros HF H. unfold BackupModule_init, state_dict in H.
  destruct (copy_state_dict v0 h params) as [h1 sd] eqn:E.
  inversion H; subst. clear H. cbn.
  destruct (proj2 copy_state_dict_fresh _ _ _ _ E HF) as [Hext [Hl Hm]].
  split; [reflexivity |]. split; [exact Hext |]. split; [exact Hl |].
  split; [exact Hm |]. split; [| reflexivity].
  intros l v Hlt. apply map_ext_in. intros q Hq.
  apply read_write_other. rewrite Forall_forall in Hl.
  specialize (Hl q Hq). lia.
Qed.

End StateDictProofs.

(** C5, at a concrete model with one parameter tensor holding 5: the
    backup's copy lives at a new location, and after an in-place update of
    the parameter to 6 the backup still holds 5. *)
Lemma backup_keeps_independent_copy :
  BackupModule_init 0%Z [5%Z] params1
    = ([5%Z; 5%Z], mkBackup params1 (SDCons "weight" (SDTensor 1) SDNil)) /\
  sd_locs params1 = [0%nat] /\
  read 0%Z (write [5%Z; 5%Z] 0 6%Z) 0 = 6%Z /\
  read 0%Z (write [5%Z; 5%Z] 0 6%Z) 1 = 5%Z.
Proof. repeat split. Qed.

Lemma backup_deep_copy_witness :
  Forall (fun l => l < List.length [5%Z])%nat (sd_locs params1) /\
  map (read 0%Z (write [5%Z; 5%Z] 0 6%Z)) [1%nat] = map (read 0%Z [5%Z; 5%Z]) [1%nat].
Proof.
  assert (HF : Forall (fun l => l < List.length [5%Z])%nat (sd_locs params1))
    by (repeat constructor).
  split; [exact HF |].
  destruct (backup_deep_copy 0%Z [5%Z] params1 [5%Z; 5%Z]
              (mkBackup params1 (SDCons "weight" (SDTensor 1) SDNil)) HF eq_refl)
    as (_ & _ & _ & _ & Hw & _).
  exact (Hw 0%nat 6%Z (le_n 1)).
Defined.

Section TensorUtilsProofs.

Context {Tensor Device Flt Other : Type}.
Variable tensor_to : Tensor -> Device -> Tensor.
Variable detach : Tensor -> Tensor.
Variable cpu : Tensor -> Tensor.
Variable numel : Tensor -> Z.
Variable to_float : Tensor -> Flt.

(** C6 (amended): to_device, smart_detach, smart_to_cpu and
    smart_detach_cpu apply their tensor operation to a tensor;
    smart_to_float applies [float(x.detach().cpu())] only to a tensor with
    exactly one element and returns any other tensor unchanged.  All of them
    map a list or a tuple elementwise into a list, keeping the order and the
    length, and return every other value unchanged; [to_device x None = x]
    for every [x]. *)
Theorem tensor_helpers_dispatch :
  (forall x : @PyVal Tensor Flt Other, to_device tensor_to x None = x) /\
  (forall d, dispatches (fun x : @PyVal Tensor Flt Other => to_device tensor_to x (Some d))
                        (fun t => PTensor (tensor_to t d))) /\
  dispatches (smart_detach (Flt := Flt) (Other := Other) detach) (fun t => PTensor (detach t)) /\
  dispatches (smart_to_cpu (Flt := Flt) (Other := Other) cpu) (fun t => PTensor (cpu t)) /\
  dispatches (smart_detach_cpu (Flt := Flt) (Other := Other) detach cpu)
    (fun t => PTensor (cpu (detach t))) /\
  dispatches (smart_to_float (Other := Other) detach cpu numel to_float)
    (fun t => if numel t =? 1 then PFloat (to_float (cpu (detach t))) else PTensor t) /\
  (forall (F : @PyVal Tensor Flt Other -> @PyVal Tensor Flt Other) l,
     List.length (map F l) = List.length l /\
     forall i y, nth_error l i = Some y -> nth_error (map F l) i = Some (F y)).
Proof.
  repeat split; try reflexivity.
  - intros x. destruct x; reflexivity.
  - apply length_map.
  - intros i y Hy. rewrite nth_error_map, Hy. reflexivity.
Qed.

End TensorUtilsProofs.

(** C6, at a concrete input: smart_to_float returns a two-element tensor
    as it is, instead of converting it. *)
Lemma smart_to_float_multi_element :
  smart_to_float (Other := unit) (fun t : Z => t) (fun t => t) (fun _ => 2) (fun t : Z => t)
    (PTensor 7) = PTensor 7 /\
  PTensor 7 <> PFloat (Tensor := Z) (Other := unit) 7.
Proof. split; [reflexivity | discriminate]. Qed.

Section RngProofs.

Context {RS Seed Exn : Type}.
Variable seeded_torch seeded_cuda seeded_numpy seeded_python : Seed -> RS.

Abbreviation with_seed := (seeded_rng (Exn := Exn) seeded_torch seeded_cuda seeded_numpy seeded_python).

(** seeded_rng on its own: with [None] it runs the body and nothing else;
    with a seed and a body that returns normally it gives back the torch
    CPU, numpy and python states held before the block, while the CUDA
    generators keep what the block left in them; a block that does not
    touch the generators leaves every CUDA generator seeded with [seed]. *)
Lemma seeded_rng_effect :
  (forall A (body : @Body RS Exn A) r, with_seed None body r = body r) /\
  (forall A sd (body : @Body RS Exn A) r a r',
     with_seed (Some sd) body r = (inl a, r') ->
     r'.(torch_cpu) = r.(torch_cpu) /\ r'.(numpy_rng) = r.(numpy_rng) /\
     r'.(python_rng) = r.(python_rng) /\
     exists r2,
       body (random_seed seeded_python sd (np_seed seeded_numpy sd
               (manual_seed seeded_torch seeded_cuda sd r))) = (inl a, r2) /\
       r'.(torch_cuda) = r2.(torch_cuda)) /\
  (forall sd r,
     (snd (with_seed (Some sd) (fun r0 => (inl tt, r0)) r)).(torch_cuda)
       = map (fun _ => seeded_cuda sd) r.(torch_cuda)).
Proof.
  split; [| split].
  - reflexivity.
  - intros A sd body r a r' H. unfold seeded_rng in H.
    destruct (body _) as [[a0 | e] r2] eqn:E; inversion H; subst.
    cbn. repeat split. exists r2. split; reflexivity.
  - reflexivity.
Qed.

End RngProofs.

(** C8, at a concrete state with one CUDA device: before the block the
    CUDA generator is in state 2; [with seeded_rng(0): pass] gives back the
    CPU, numpy and python states 1, 3 and 4 but leaves the CUDA generator
    in the seeded state 42 instead of 2. *)
Lemma seeded_rng_cuda_not_restored :
  seeded_rng (Exn := unit) (fun _ : Z => 40%Z) (fun _ => 42%Z) (fun _ => 43%Z) (fun _ => 44%Z)
    (Some 0%Z) (fun r0 => (inl tt, r0)) (mkRngs 1%Z [2%Z] 3%Z 4%Z)
  = (inl tt, mkRngs 1%Z [42%Z] 3%Z 4%Z).
Proof. reflexivity. Qed.

Section FreezeProofs.

Local Open Scope nat_scope.

Lemma freeze_loop_spec (ps : list nat) :
  NoDup ps ->
  forall (h : flags) orig,
    let '(h', o) := freeze_loop h ps orig in
    o = orig ++ map h ps /\
    forall q, h' q = if in_params ps q then false else h q.
Proof.
  induction ps as [| p ps IH]; intros Hnd h orig; cbn.
  - rewrite app_nil_r. split; reflexivity.
  - inversion Hnd as [| ? ? Hnin Hnd']; subst.
    specialize (IH Hnd' (set_flag h p false) (orig ++ [h p])).
    destruct (freeze_loop (set_flag h p false) ps (orig ++ [h p])) as [h' o].
    destruct IH as [Ho Hh]. split.
    + rewrite Ho, <- app_assoc. cbn. f_equal. f_equal.
      apply map_ext_in. intros q Hq. unfold set_flag.
      destruct (Nat.eqb_spec q p); [subst; contradiction | reflexivity].
    + intros q. rewrite Hh. unfold in_params, set_flag. cbn.
      destruct (Nat.eqb_spec q p); cbn; [subst; destruct existsb; reflexivity |].
      reflexivity.
Qed.

Lemma unfreeze_loop_spec (g : nat -> bool) (ps : list nat) :
  forall (h : flags) orig i,
    (forall k p, nth_error ps k = Some p -> nth_error orig (i + k) = Some (g p)) ->
    exists h', unfreeze_loop h ps orig i = Some h' /\
               forall q, h' q = if in_params ps q then g q else h q.
Proof.
  induction ps as [| p ps IH]; intros h orig i Hg; cbn.
  - exists h. split; reflexivity.
  - assert (H0 := Hg 0 p eq_refl). rewrite Nat.add_0_r in H0. rewrite H0.
    destruct (IH (set_flag h p (g p)) orig (S i)) as [h' [Hu Hh]].
    { intros k p' Hk. specialize (Hg (S k) p' Hk). rewrite Nat.add_succ_r in Hg.
      exact Hg. }
    exists h'. split; [exact Hu |].
    intros q. rewrite Hh. unfold in_params, set_flag. cbn.
    destruct (Nat.eqb_spec q p); cbn; [subst; destruct existsb; reflexivity |].
    reflexivity.
Qed.

(** C9: for a model whose parameters() yields the same parameters, each
    once (as torch's Module.parameters() does, removing duplicates), in the
    same order at both calls, FreezeModel(model) clears requires_grad of
    every parameter and touches no other flag, and a following unfreeze()
    gives every flag back the value it had before the construction. *)
Theorem freeze_unfreeze_identity (h : flags) (ps : list nat) :
  NoDup ps ->
  match FreezeModel_init h ps with
  | (h1, fm) =>
      (forall p, In p ps -> h1 p = false) /\
      (forall q, ~ In q ps -> h1 q = h q) /\
      fm.(frozen) = true /\
      exists h2 fm', unfreeze h1 fm ps = Some (h2, fm') /\
                     (forall q, h2 q = h q) /\ fm'.(frozen) = false
  end.
Proof.
  intros Hnd. unfold FreezeModel_init.
  assert (Hf := freeze_loop_spec ps Hnd h []).
  destruct (freeze_loop h ps []) as [h1 o] eqn:E. destruct Hf as [Ho Hh1].
  cbn in Ho. subst o.
  assert (Hin : forall q, in_params ps q = true <-> In q ps).
  { intros q. unfold in_params. rewrite existsb_exists. split.
    - intros [x [Hx Heq]]. apply Nat.eqb_eq in Heq. subst. exact Hx.
    - intros Hq. exists q. split; [exact Hq | apply Nat.eqb_refl]. }
  split; [| split; [| split]].
  - intros p Hp. rewrite Hh1. apply Hin in Hp. rewrite Hp. reflexivity.
  - intros q Hq. rewrite Hh1. destruct (in_params ps q) eqn:Eq; [| reflexivity].
    apply Hin in Eq. contradiction.
  - reflexivity.
  - destruct (unfreeze_loop_spec h ps h1 (map h ps) 0) as [h2 [Hu Hh2]].
    { intros k p Hk. cbn. rewrite nth_error_map, Hk. reflexivity. }
    unfold unfreeze. cbn. rewrite Hu.
    eexists; eexists. split; [reflexivity |]. split; [| reflexivity].
    intros q. rewrite Hh2, Hh1. destruct (in_params ps q); reflexivity.
Qed.

End FreezeProofs.

(** C9, at a model with parameters 0 (requires_grad=True) and 1
    (requires_grad=False). *)
Lemma freeze_unfreeze_identity_witness :
  NoDup [0%nat; 1%nat] /\
  match FreezeModel_init (fun q => Nat.eqb q 0) [0%nat; 1%nat] with
  | (h1, fm) =>
      (forall p, In p [0%nat; 1%nat] -> h1 p = false) /\
      (forall q, ~ In q [0%nat; 1%nat] -> h1 q = Nat.eqb q 0) /\
      fm.(frozen) = true /\
      exists h2 fm', unfreeze h1 fm [0%nat; 1%nat] = Some (h2, fm') /\
                     (forall q, h2 q = Nat.eqb q 0) /\ fm'.(frozen) = false
  end.
Proof.
  assert (Hnd : NoDup [0%nat; 1%nat]).
  { constructor; [cbn; lia | constructor; [cbn; lia | constructor]]. }
  split; [exact Hnd |].
  exact (freeze_unfreeze_identity (fun q => Nat.eqb q 0) [0%nat; 1%nat] Hnd).
Defined.

Section DigitsProofs.

Lemma eval_digits_bound (b : Z) (ds : list Z) :
  2 <= b -> Forall (fun d => 0 <= d < b) ds ->
  forall acc, 0 <= acc ->
  0 <= fold_left (fun a d => a * b + d) ds acc < (acc + 1) * b ^ Z.of_nat (List.length ds).
Proof.
  intros Hb Hds. induction Hds as [| d ds Hd Hds IH]; intros acc Hacc;
    cbn [fold_left List.length].
  - lia.
  - specialize (IH (acc * b + d) ltac:(nia)).
    rewrite Nat2Z.inj_succ, Z.pow_succ_r by lia.
    assert (Hp : 0 < b ^ Z.of_nat (List.length ds)) by (apply Z.pow_pos_nonneg; lia).
    nia.
Qed.

Lemma arange_down_length (n : nat) : List.length (arange_down n) = S n.
Proof. induction n as [| n IH]; cbn; [reflexivity | rewrite IH; reflexivity]. Qed.

Lemma arange_down_nonneg (n : nat) : Forall (fun e => 0 <= e) (arange_down n).
Proof. induction n as [| n IH]; cbn; constructor; [lia | constructor | lia | exact IH]. Qed.

(** When the exponent [top] computed by the floating-point logarithm falls
    below the true number of digits minus one ([base ^ (top + 1) <= number]),
    map_to_base returns [top + 1] digits, each in [0, base), whose
    positional value is below [number]: the leading digits are lost. *)
Lemma map_to_base_short_top (number base : Z) (top : nat) :
  2 <= base -> 1 <= number -> base ^ (Z.of_nat top + 1) <= number ->
  Forall (fun d => 0 <= d < base) (map_to_base number base top) /\
  eval_digits base (map_to_base number base top) < number.
Proof.
  intros Hb Hn Hp. unfold map_to_base.
  destruct (Z.eqb_spec number 0) as [-> | _]; [lia |].
  assert (HF : Forall (fun d => 0 <= d < base)
                 (map (fun e => (number / base ^ e) mod base) (arange_down top))).
  { apply Forall_map. eapply Forall_impl; [| apply arange_down_nonneg].
    intros e _. apply Z.mod_pos_bound. lia. }
  split; [exact HF |].
  destruct (eval_digits_bound base _ ltac:(lia) HF 0 ltac:(lia)) as [_ Hlt].
  unfold eval_digits. rewrite length_map, arange_down_length, Nat2Z.inj_succ in Hlt.
  rewrite <- Z.add_1_r in Hlt. lia.
Qed.

End DigitsProofs.

(** C10, at number 1000 and base 10: in double precision
    [math.log(1000) / math.log(10)] is 2.9999999999999996, so [top] is 2
    and map_to_base returns the digits 0, 0, 0, whose value is 0, not 1000;
    number 0 gives the single digit 0. *)
Lemma map_to_base_1000 :
  map_to_base 1000 10 2 = [0; 0; 0] /\
  eval_digits 10 (map_to_base 1000 10 2) = 0 /\
  map_to_base 1000 10 3 = [1; 0; 0; 0] /\
  map_to_base 0 10 0 = [0].
Proof. repeat split. Qed.

(* ================================================================== *)
(** * Further properties of the code *)

Section TensorUtilsMore.

Context {Tensor Device Flt Other : Type}.
Variable tensor_to : Tensor -> Device -> Tensor.
Variable detach : Tensor -> Tensor.
Variable cpu : Tensor -> Tensor.
Variable numel : Tensor -> Z.
Variable to_float : Tensor -> Flt.

(** Induction on Python values, through the elements of lists and tuples. *)
Lemma PyVal_deep_ind (P : @PyVal Tensor Flt Other -> Prop) :
  (forall t, P (PTensor t)) ->
  (forall l, Forall P l -> P (PList l)) ->
  (forall l, Forall P l -> P (PTuple l)) ->
  (forall f, P (PFloat f)) ->
  (forall o, P (POther o)) ->
  forall x, P x.
Proof.
  intros Ht Hl Htu Hf Ho.
  fix IH 1. intros [t | l | l | f | o].
  - apply Ht.
  - apply Hl. induction l as [| y l IHl]; constructor; [apply IH | exact IHl].
  - apply Htu. induction l as [| y l IHl]; constructor; [apply IH | exact IHl].
  - apply Hf.
  - apply Ho.
Qed.

(** smart_detach_cpu is smart_to_cpu after smart_detach, at every depth. *)
Theorem smart_detach_cpu_compose (x : @PyVal Tensor Flt Other) :
  smart_detach_cpu detach cpu x = smart_to_cpu cpu (smart_detach detach x).
Proof.
  induction x using PyVal_deep_ind; cbn; try reflexivity;
    f_equal; rewrite map_map; apply map_ext_in; intros y Hy;
    rewrite Forall_forall in H; apply H, Hy.
Qed.

Lemma forallb_map_true (F : @PyVal Tensor Flt Other -> @PyVal Tensor Flt Other) l :
  Forall (fun x => no_tuple (F x) = true) l -> forallb no_tuple (map F l) = true.
Proof.
  induction 1 as [| y l Hy _ IH]; cbn; [reflexivity | rewrite Hy, IH; reflexivity].
Qed.

(** A tuple never survives: to a device other than None, smart_detach,
    smart_to_cpu, smart_detach_cpu and smart_to_float return a value with
    no tuple at any depth (every tuple becomes a list). *)
Theorem helpers_no_tuple (x : @PyVal Tensor Flt Other) :
  (forall d, no_tuple (to_device tensor_to x (Some d)) = true) /\
  no_tuple (smart_detach detach x) = true /\
  no_tuple (smart_to_cpu cpu x) = true /\
  no_tuple (smart_detach_cpu detach cpu x) = true /\
  no_tuple (smart_to_float detach cpu numel to_float x) = true.
Proof.
  induction x using PyVal_deep_ind; cbn; try (repeat split; reflexivity).
  - destruct (numel t =? 1); repeat split; reflexivity.
  - repeat split; [intros d |..]; apply forallb_map_true;
      eapply Forall_impl; try exact H; cbn; intros y Hy; apply Hy.
  - repeat split; [intros d |..]; apply forallb_map_true;
      eapply Forall_impl; try exact H; cbn; intros y Hy; apply Hy.
Qed.

End TensorUtilsMore.

Section LrFinderMore.

Context {Num Exn : Type}.
Variable mul add div : Num -> Num -> Num.
Variable gt : Num -> Num -> bool.
Variable minimum : list Num -> Num.
Variable dflt : Num.
Variable is_zero : Num -> bool.

Lemma get_lr_set_lr (g : list Num) x : g <> [] -> get_lr dflt (set_lr g x) = x.
Proof. destruct g; [congruence | reflexivity]. Qed.

Lemma change_lr_set_lr (g : list Num) x f : change_lr (set_lr g x) f = set_lr g (f x).
Proof. unfold change_lr, set_lr. rewrite map_map. reflexivity. Qed.

Lemma lr_loop_ok fuel (obf : nat -> @PyRes Exn Num) (mul_ add_ start : Num) e m g0 :
  g0 <> [] ->
  let f := fun x => add (mul x mul_) add_ in
  forall k lrs losses g' lrs' losses',
  lr_loop mul add div gt minimum dflt is_zero fuel obf k mul_ add_ e m
    (set_lr g0 (Nat.iter k f start)) lrs losses = Some (g', POk (lrs', losses')) ->
  lrs = map (fun j => Nat.iter j f start) (seq 0 k) ->
  List.length losses = k ->
  (forall j, (j < k)%nat -> obf j = POk (nth j losses dflt)) ->
  exists n,
    lrs' = map (fun j => Nat.iter j f start) (seq 0 (S n)) /\
    List.length losses' = S n /\
    (forall j, (j <= n)%nat -> obf j = POk (nth j losses' dflt)) /\
    g' = set_lr g0 (Nat.iter (S n) f start).
Proof.
  intros Hg f. induction fuel as [| fuel IH];
    intros k lrs losses g' lrs' losses' H Hlrs Hlen Hobf; cbn in H; [discriminate |].
  destruct (obf k) as [l | y] eqn:Ek; [| discriminate].
  rewrite get_lr_set_lr in H by exact Hg. rewrite change_lr_set_lr in H.
  fold f in H.
  assert (Hlrs' : lrs ++ [Nat.iter k f start] = map (fun j => Nat.iter j f start) (seq 0 (S k))).
  { rewrite seq_S, map_app, Hlrs. reflexivity. }
  assert (Hlen' : List.length (losses ++ [l]) = S k).
  { rewrite length_app, Hlen. cbn. lia. }
  assert (Hobf' : forall j, (j < S k)%nat -> obf j = POk (nth j (losses ++ [l]) dflt)).
  { intros j Hj. destruct (Nat.eq_dec j k) as [-> | Hne].
    - rewrite app_nth2 by lia. rewrite Hlen, Nat.sub_diag. exact Ek.
    - rewrite app_nth1 by lia. apply Hobf. lia. }
  assert (Hstop : Some (set_lr g0 (f (Nat.iter k f start)), @POk Exn _ (lrs ++ [Nat.iter k f start], losses ++ [l]))
                  = Some (g', POk (lrs', losses')) ->
                  exists n,
                    lrs' = map (fun j => Nat.iter j f start) (seq 0 (S n)) /\
                    List.length losses' = S n /\
                    (forall j, (j <= n)%nat -> obf j = POk (nth j losses' dflt)) /\
                    g' = set_lr g0 (Nat.iter (S n) f start)).
  { intros Hs. injection Hs as <- <- <-. exists k. repeat split.
    + exact Hlrs'.
    + exact Hlen'.
    + intros j Hj. apply Hobf'. lia. }
  destruct (match e with Some _ => _ | None => false end); [exact (Hstop H) |].
  destruct m as [m |]; [| exact (IH (S k) _ _ _ _ _ H Hlrs' Hlen' Hobf')].
  destruct (is_zero _); [discriminate |].
  destruct (gt _ m); [exact (Hstop H) | exact (IH (S k) _ _ _ _ _ H Hlrs' Hlen' Hobf')].
Qed.

(** lr_finder_fn, when it stops normally, has run the one-batch function on
    batches 0..n and recorded, for each, its loss and the learning rate it
    was run with: the learning rates are start, f(start), ..., f^n(start)
    with f(x) = x * mul + add, and every param group is left at
    f^(n+1)(start).  (The optimizer has at least one param group.) *)
Theorem lr_finder_fn_schedule fuel (obf : nat -> @PyRes Exn Num) g start mul_ add_ e m
    g' lrs losses :
  g <> [] ->
  lr_finder_fn mul add div gt minimum dflt is_zero fuel obf g start mul_ add_ e m
    = Some (g', POk (lrs, losses)) ->
  let f := fun x => add (mul x mul_) add_ in
  exists n,
    lrs = map (fun j => Nat.iter j f start) (seq 0 (S n)) /\
    List.length losses = S n /\
    (forall j, (j <= n)%nat -> obf j = POk (nth j losses dflt)) /\
    g' = set_lr g (Nat.iter (S n) f start).
Proof.
  intros Hg H f. unfold lr_finder_fn in H.
  assert (Hl : forall e' m',
            lr_loop mul add div gt minimum dflt is_zero fuel obf 0 mul_ add_ e' m' (set_lr g start) [] []
              = Some (g', POk (lrs, losses)) ->
            exists n,
              lrs = map (fun j => Nat.iter j f start) (seq 0 (S n)) /\
              List.length losses = S n /\
              (forall j, (j <= n)%nat -> obf j = POk (nth j losses dflt)) /\
              g' = set_lr g (Nat.iter (S n) f start)).
  { intros e' m' H'.
    apply (lr_loop_ok fuel obf mul_ add_ start e' m' g Hg 0 [] [] g' lrs losses);
      [exact H' | reflexivity | reflexivity | intros j Hj; lia]. }
  destruct e, m; try discriminate; apply (Hl _ _ H).
Qed.

End LrFinderMore.

(** lr_finder_fn at a concrete run: loss 1 at every batch, learning rate
    doubled until it exceeds 4: three batches. *)
Lemma lr_finder_fn_schedule_witness :
  exists n,
    [1%Z; 2%Z; 4%Z] = map (fun j => Nat.iter j (fun x => Z.add (Z.mul x 2) 0) 1%Z) (seq 0 (S n)) /\
    List.length [1%Z; 1%Z; 1%Z] = S n /\
    (forall j, (j <= n)%nat -> (fun _ : nat => POk (Exn := unit) 1%Z) j
                               = POk (nth j [1%Z; 1%Z; 1%Z] 0%Z)) /\
    [8%Z] = set_lr [5%Z] (Nat.iter (S n) (fun x => Z.add (Z.mul x 2) 0) 1%Z).
Proof.
  apply (lr_finder_fn_schedule Z.mul Z.add Z.div Z.gtb (fun _ => 1%Z) 0%Z (Z.eqb 0) 10
           (fun _ => POk 1%Z) [5%Z] 1%Z 2%Z 0%Z (Some 4%Z) None).
  - discriminate.
  - reflexivity.
Defined.

Section LrAverageProofs.

Context {Num : Type}.
Variable zero : Num.
Variable add : Num -> Num -> Num.
Variable div_nat : Num -> nat -> Num.

Lemma max_length_witness {A} (ls : list (list A)) k :
  (k < max_length ls)%nat -> exists l, In l ls /\ (k < List.length l)%nat.
Proof.
  unfold max_length. induction ls as [| l ls IH]; cbn; intros Hk; [lia |].
  destruct (Nat.lt_ge_cases k (List.length l)).
  - exists l. split; [left; reflexivity | assumption].
  - destruct IH as [l' [Hin Hl']]; [lia |]. exists l'. split; [right; exact Hin | exact Hl'].
Qed.

Lemma somes_nonempty {A} (i : list (option A)) a : In (Some a) i -> (1 <= List.length (somes i))%nat.
Proof.
  induction i as [| o i IH]; cbn; [tauto |]. intros [-> | Hin]; cbn; [lia |].
  destruct o; cbn; [lia | auto].
Qed.

Lemma zip_longest_nth {A} (ls : list (list A)) k :
  (k < max_length ls)%nat ->
  nth_error (zip_longest ls) k = Some (map (fun l => nth_error l k) ls).
Proof.
  intros Hk. unfold zip_longest. rewrite nth_error_map, nth_error_seq.
  apply Nat.ltb_lt in Hk. rewrite Hk. reflexivity.
Qed.

(** The end of lr_finder: one averaged loss per position of the longest
    iteration and one learning rate per position of the longest lr list;
    the k-th average divides the sum of the k-th losses by the number of
    iterations that reached position k, which is never zero, so the
    division cannot fail; and the k-th learning rate is the first
    iteration's, None where the first iteration is shorter. *)
Theorem lr_finder_average_shape (iter_losses iter_lrs : list (list Num)) :
  let '(avg, lrs) := lr_finder_average zero add div_nat iter_losses iter_lrs in
  List.length avg = max_length iter_losses /\
  List.length lrs = max_length iter_lrs /\
  (forall k, (k < max_length iter_losses)%nat ->
     let col := somes (map (fun l => nth_error l k) iter_losses) in
     (1 <= List.length col)%nat /\
     nth_error avg k = Some (div_nat (py_sum zero add col) (List.length col))) /\
  (forall k, (k < max_length iter_lrs)%nat ->
     nth_error lrs k = Some (nth_error (hd [] iter_lrs) k)).
Proof.
  unfold lr_finder_average. repeat split.
  - rewrite !length_map. unfold zip_longest. rewrite length_map, length_seq. reflexivity.
  - rewrite length_map. unfold zip_longest. rewrite length_map, length_seq. reflexivity.
  - destruct (max_length_witness iter_losses k H) as [l [Hin Hl]].
    destruct (nth_error l k) as [a |] eqn:E;
      [| apply nth_error_None in E; lia].
    apply (somes_nonempty _ a). rewrite <- E. exact (in_map (fun l0 => nth_error l0 k) _ _ Hin).
  - rewrite !nth_error_map, zip_longest_nth by exact H. reflexivity.
  - intros k Hk. rewrite nth_error_map, zip_longest_nth by exact Hk.
    destruct iter_lrs; [cbn in Hk; lia | reflexivity].
Qed.

End LrAverageProofs.

Section LrIterProofs.

Context {Num Exn : Type}.

Definition iters_inv (it : nat -> @PyRes Exn (list Num * list Num))
    (al ar : list (list Num)) : Prop :=
  List.length al = List.length ar /\
  forall j, (j < List.length al)%nat ->
    exists lrs losses, it j = POk (lrs, losses) /\
      nth_error al j = Some (removelast losses) /\ nth_error ar j = Some (removelast lrs).

Lemma lr_finder_iters_ok niter it al ar L R :
  iters_inv it al ar ->
  lr_finder_iters niter (List.length al) it al ar = POk (L, R) ->
  iters_inv it L R /\ (List.length L <= List.length al + niter)%nat /\
  (List.length al <= List.length L)%nat /\
  ((List.length L < List.length al + niter)%nat -> it (List.length L) = PRaise KeyboardInterrupt).
Proof.
  revert al ar. induction niter as [| n IH]; intros al ar Hinv H; cbn in H.
  - injection H as <- <-. repeat split; try apply Hinv; lia.
  - destruct (it (List.length al)) as [[lrs losses] | e] eqn:E.
    + assert (Hinv' : iters_inv it (al ++ [removelast losses]) (ar ++ [removelast lrs])).
      { destruct Hinv as [Hl Hj]. split; [rewrite !length_app; cbn; lia |].
        intros j Hlt. rewrite length_app in Hlt; cbn in Hlt.
        destruct (Nat.eq_dec j (List.length al)) as [-> | Hne].
        - exists lrs, losses. rewrite !nth_error_app2 by lia.
          rewrite <- Hl, Nat.sub_diag. auto.
        - rewrite !nth_error_app1 by lia. apply Hj. lia. }
      replace (S (List.length al)) with (List.length (al ++ [removelast losses])) in H
        by (rewrite length_app; cbn; lia).
      destruct (IH _ _ Hinv' H) as [HI [H1 [H2 H3]]].
      rewrite length_app in H1, H2, H3; cbn in H1, H2, H3.
      repeat split; try apply HI; try lia.
      intros Hlt. apply H3. lia.
    + destruct e; try discriminate. injection H as <- <-.
      repeat split; try apply Hinv; try lia.
      intros _. exact E.
Qed.

(** The iteration loop of lr_finder: the losses and the lrs it collects
    are, entry for entry, those of the iterations run, each without its
    last element; at most niter of them; and when there are fewer than
    niter, the next iteration was interrupted by a KeyboardInterrupt. *)
Theorem lr_finder_iters_collect niter (it : nat -> @PyRes Exn (list Num * list Num)) L R :
  lr_finder_iters niter 0 it [] [] = POk (L, R) ->
  List.length L = List.length R /\ (List.length L <= niter)%nat /\
  (forall j, (j < List.length L)%nat ->
     exists lrs losses, it j = POk (lrs, losses) /\
       nth_error L j = Some (removelast losses) /\ nth_error R j = Some (removelast lrs)) /\
  ((List.length L < niter)%nat -> it (List.length L) = PRaise KeyboardInterrupt).
Proof.
  intros H.
  assert (H0 : iters_inv it [] []) by (split; [reflexivity | cbn; intros; lia]).
  destruct (lr_finder_iters_ok niter it [] [] L R H0 H) as [[Hl Hj] [H1 [_ H3]]].
  cbn in H1, H3. auto.
Qed.

End LrIterProofs.

(** Two iterations asked for, the second interrupted. *)
Lemma lr_finder_iters_collect_witness :
  let it := fun j : nat => if Nat.eqb j 0 then POk ([1%Z; 2%Z], [5%Z; 7%Z])
                           else PRaise (Exn := unit) KeyboardInterrupt in
  lr_finder_iters 2 0 it [] [] = POk ([[5%Z]], [[1%Z]]) /\
  (List.length [[5%Z]] = List.length [[1%Z]] /\ (List.length [[5%Z]] <= 2)%nat /\
  (forall j, (j < List.length [[5%Z]])%nat ->
     exists lrs losses, it j = POk (lrs, losses) /\
       nth_error [[5%Z]] j = Some (removelast losses) /\ nth_error [[1%Z]] j = Some (removelast lrs)) /\
  ((List.length [[5%Z]] < 2)%nat -> it (List.length [[5%Z]]) = PRaise KeyboardInterrupt)).
Proof.
  intros it. split; [reflexivity |].
  apply (lr_finder_iters_collect 2 it). reflexivity.
Defined.

Module AreaAroundProofs.

Lemma slice_norm_range n a : 0 <= n -> 0 <= slice_norm n a <= n.
Proof. intros Hn. unfold slice_norm. destruct (Z.ltb_spec a 0); lia. Qed.

(** The model of the shape of a slice is the length of Python's list slice. *)
Lemma py_slice_length {A} (l : list A) a b :
  Z.of_nat (List.length (py_slice l a b)) = py_slice_len (Z.of_nat (List.length l)) a b.
Proof.
  unfold py_slice, py_slice_len. set (n := Z.of_nat (List.length l)).
  pose proof (slice_norm_range n a (Nat2Z.is_nonneg _)) as Ha.
  pose proof (slice_norm_range n b (Nat2Z.is_nonneg _)) as Hb.
  rewrite length_firstn, length_skipn, Nat2Z.inj_min, Nat2Z.inj_sub.
  - assert (Ht : forall x, Z.of_nat (Z.to_nat x) = Z.max 0 x) by (intros; lia).
    rewrite !Ht. subst n. lia.
  - subst n. apply Nat2Z.inj_le. rewrite Z2Nat.id; lia.
Qed.

Lemma int_half_spec s : 0 <= s -> 0 <= int_half s /\ 2 * int_half s = s - Z.rem s 2.
Proof.
  intros Hs. unfold int_half. split.
  - apply Z.quot_pos; lia.
  - pose proof (Z.quot_rem' s 2). lia.
Qed.

(** area_around on one axis of length n, when the window fits (a size s
    with 2 * int(s/2) + 1 <= n): the slice lies inside the axis, not
    touching its last index, it has s - s mod 2 elements (an odd size
    gives one element less than asked for), and it is centred on x
    whenever the centred window already lies inside. *)
Theorem area_around_axis_window x s n :
  0 <= s -> 2 * int_half s + 1 <= n ->
  let '(a, b) := axis_bounds x s n in
  0 <= a /\ b <= n - 1 /\ b - a = s - Z.rem s 2 /\
  axis_len x s n = s - Z.rem s 2 /\
  (int_half s <= x -> x + int_half s + 1 <= n -> a = x - int_half s).
Proof.
  intros Hs Hn. destruct (int_half_spec s Hs) as [H0 H2].
  unfold axis_len, axis_bounds, clamp_axis, py_slice_len, slice_norm.
  set (sx := int_half s) in *.
  repeat match goal with
         | |- context [?a <? ?b] => destruct (Z.ltb_spec a b)
         | |- context [?a >? ?b] => destruct (Z.gtb_spec a b)
         end; repeat split; lia.
Qed.

Lemma combine_axis_len coord size sp :
  List.length coord = List.length size ->
  Forall2 (fun s n => 0 <= s /\ 2 * int_half s + 1 <= n) size sp ->
  map (fun '(xs, n) => axis_len (fst xs) (snd xs) n) (combine (combine coord size) sp)
  = map (fun s => s - Z.rem s 2) size.
Proof.
  intros Hl HF. revert coord Hl. induction HF as [| s n size sp [Hs Hn] HF IH];
    intros [| x coord] Hl; cbn [List.length] in Hl; cbn [combine map fst snd];
    try discriminate; try reflexivity.
  pose proof (area_around_axis_window x s n Hs Hn) as Hw.
  destruct (axis_bounds x s n) as [a b] eqn:E.
  destruct Hw as (_ & _ & _ & Hlen & _).
  rewrite Hlen, IH by lia. reflexivity.
Qed.

Lemma lead_dims_some ncoord ndim :
  (ncoord = 2 \/ ncoord = 3)%nat -> (ncoord <= ndim <= 4)%nat ->
  lead_dims ncoord ndim = Some (ndim - ncoord)%nat.
Proof.
  intros [-> | ->] Hd; unfold lead_dims; cbn;
    assert (ndim = 2 \/ ndim = 3 \/ ndim = 4)%nat as [-> | [-> | ->]] by lia;
    cbn; reflexivity || lia.
Qed.

(** area_around on a tensor with 2 or 3 spatial axes at its end (ndim
    from the number of coordinates up to 4), integer coordinates and a
    size that fits every spatial axis: the leading axes are kept whole
    and every spatial axis of the result has size s - s mod 2. *)
Theorem area_around_shape_fits {Exn} (shape coord size : list Z) :
  (List.length coord = 2 \/ List.length coord = 3)%nat ->
  List.length size = List.length coord ->
  (List.length coord <= List.length shape <= 4)%nat ->
  Forall2 (fun s n => 0 <= s /\ 2 * int_half s + 1 <= n)
    size (skipn (List.length shape - List.length coord) shape) ->
  area_around_shape (Exn := Exn) shape coord size
  = POk (firstn (List.length shape - List.length coord) shape ++ map (fun s => s - Z.rem s 2) size).
Proof.
  intros Hc Hs Hd HF. unfold area_around_shape.
  assert (Hb : (Nat.eqb (List.length coord) 3 || Nat.eqb (List.length coord) 2)%bool = true).
  { destruct Hc as [-> | ->]; reflexivity. }
  rewrite Hb, Hs, Nat.eqb_refl, (lead_dims_some _ _ Hc Hd).
  rewrite (combine_axis_len coord size) by (auto; lia). reflexivity.
Qed.

(** The guards of area_around. *)
Lemma area_around_guard {Exn} (shape coord size : list Z) :
  List.length size = List.length coord ->
  ~ ((List.length coord = 2 \/ List.length coord = 3) /\
     (List.length coord <= List.length shape <= 4))%nat ->
  exists msg, area_around_shape (Exn := Exn) shape coord size = PRaise (NotImplementedError msg).
Proof.
  intros Hs Hn. unfold area_around_shape. rewrite Hs, Nat.eqb_refl.
  destruct (Nat.eqb_spec (List.length coord) 3) as [E3 | N3];
    destruct (Nat.eqb_spec (List.length coord) 2) as [E2 | N2]; cbn;
    try (eexists; reflexivity); try (exfalso; lia).
  - rewrite E3. unfold lead_dims. cbn.
    destruct (Nat.eqb_spec (List.length shape) 3);
      [exfalso; apply Hn; lia |].
    destruct (Nat.eqb_spec (List.length shape) 4);
      [exfalso; apply Hn; lia | eexists; reflexivity].
  - rewrite E2. unfold lead_dims. cbn.
    destruct (Nat.eqb_spec (List.length shape) 2); [exfalso; apply Hn; lia |].
    destruct (Nat.eqb_spec (List.length shape) 3); [exfalso; apply Hn; lia |].
    destruct (Nat.eqb_spec (List.length shape) 4); [exfalso; apply Hn; lia | eexists; reflexivity].
Qed.

(** area_around raises NotImplementedError unless there are 2 or 3
    coordinates and the tensor has between that many and 4 dimensions
    (a size of the wrong length raising the unpacking ValueError first). *)
Theorem area_around_not_implemented {Exn} (shape coord size : list Z) :
  List.length size = List.length coord ->
  ~ ((List.length coord = 2 \/ List.length coord = 3) /\
     (List.length coord <= List.length shape <= 4))%nat ->
  exists msg, area_around_shape (Exn := Exn) shape coord size = PRaise (NotImplementedError msg).
Proof. apply area_around_guard. Qed.

End AreaAroundProofs.

(** A 1x10x10 tensor, a 3x3 window around (0, 9): shifted inside, 2x2. *)
Lemma area_around_shape_fits_witness :
  area_around_shape (Exn := unit) [1; 10; 10] [0; 9] [3; 3] = POk [1; 2; 2].
Proof.
  apply (AreaAroundProofs.area_around_shape_fits [1; 10; 10] [0; 9] [3; 3]).
  - left; reflexivity.
  - reflexivity.
  - cbn; lia.
  - cbn. repeat constructor; vm_compute; discriminate.
Defined.

(** Window of size 5 around 0 on an axis of length 10. *)
Lemma area_around_axis_window_witness :
  let '(a, b) := axis_bounds 0 5 10 in
  0 <= a /\ b <= 10 - 1 /\ b - a = 5 - Z.rem 5 2 /\
  axis_len 0 5 10 = 5 - Z.rem 5 2 /\
  (int_half 5 <= 0 -> 0 + int_half 5 + 1 <= 10 -> a = 0 - int_half 5).
Proof.
  apply (AreaAroundProofs.area_around_axis_window 0 5 10); vm_compute; discriminate.
Defined.

(** A 1-D tensor with two coordinates. *)
Lemma area_around_not_implemented_witness :
  exists msg, area_around_shape (Exn := unit) [10] [0; 9] [3; 3] = PRaise (NotImplementedError msg).
Proof.
  apply (AreaAroundProofs.area_around_not_implemented [10] [0; 9] [3; 3]).
  - reflexivity.
  - cbn. lia.
Defined.

Module StepchunkProofs.

Lemma every_nth_aux_nth {A} fuel c (l : list A) k :
  (1 <= c)%nat -> (List.length l <= fuel)%nat ->
  nth_error (every_nth_aux fuel c l) k = nth_error l (k * c).
Proof.
  intros Hc. revert l k. induction fuel as [| f IH]; intros l k Hl.
  - destruct l; cbn in Hl; [| lia]. cbn. rewrite !nth_error_nil. reflexivity.
  - destruct l as [| x l'].
    + cbn. rewrite !nth_error_nil. reflexivity.
    + destruct k as [| k]; [reflexivity |]. cbn [every_nth_aux nth_error].
      rewrite IH.
      * rewrite nth_error_skipn. replace (S k * c)%nat with (c + k * c)%nat by lia. reflexivity.
      * rewrite length_skipn. cbn [List.length] in Hl |- *. lia.
Qed.

Lemma every_nth_nth {A} c (l : list A) k :
  (1 <= c)%nat -> nth_error (every_nth c l) k = nth_error l (k * c).
Proof. intros Hc. apply every_nth_aux_nth; [exact Hc | lia]. Qed.

Lemma py_slice_nth {A} (v : list A) i m j :
  0 <= i -> 0 <= m ->
  nth_error (py_slice v i (i + m)) j =
  if Nat.ltb j (Z.to_nat m) then nth_error v (Z.to_nat i + j) else None.
Proof.
  intros Hi Hm. unfold py_slice, slice_norm.
  set (n := Z.of_nat (List.length v)).
  destruct (Z.ltb_spec (i + m) 0); [lia |]. destruct (Z.ltb_spec i 0); [lia |].
  rewrite nth_error_firstn, nth_error_skipn.
  destruct (Nat.ltb_spec j (Z.to_nat (Z.min (i + m) n - Z.min i n)));
    destruct (Nat.ltb_spec j (Z.to_nat m)); try lia.
  - f_equal. lia.
  - symmetry. apply nth_error_None. subst n. lia.
  - reflexivity.
Qed.

(** stepchunk with [chunks > 0] and a maxlength that is None or not
    negative returns [chunks] lists, the i-th holding vec[i], vec[i+c],
    vec[i+2c], ... as far as index i + k*c stays below i + maxlength and
    inside the vector (maxlength None or 0: the whole vector). *)
Theorem stepchunk_nth {A} (vec : list A) (c : nat) (maxlength : option Z) :
  (0 < c)%nat -> (forall k, maxlength = Some k -> 0 <= k) ->
  let m := Z.to_nat (maxlength_or (List.length vec) maxlength) in
  List.length (stepchunk vec (Z.of_nat c) maxlength) = c /\
  forall i k, (i < c)%nat ->
    nth_error (nth i (stepchunk vec (Z.of_nat c) maxlength) []) k =
    if Nat.ltb (k * c) m then nth_error vec (i + k * c) else None.
Proof.
  intros Hc Hml m. unfold stepchunk. rewrite Nat2Z.id. split.
  - rewrite !length_map, length_seq. reflexivity.
  - intros i k Hi.
    rewrite map_map.
    match goal with
    | |- context [nth i (map ?g (seq 0 c)) []] =>
        rewrite (nth_indep _ [] (g 0%nat)) by (rewrite length_map, length_seq; exact Hi);
        rewrite (map_nth g (seq 0 c) 0%nat i)
    end.
    rewrite seq_nth by exact Hi. cbn [Nat.add].
    unfold py_slice_step. rewrite every_nth_nth by lia.
    rewrite py_slice_nth.
    + rewrite Nat2Z.id. reflexivity.
    + lia.
    + unfold maxlength_or. destruct maxlength as [k' |]; [| lia].
      destruct (Z.eqb_spec k' 0); [lia | apply Hml; reflexivity].
Qed.

End StepchunkProofs.

(** stepchunk over 0..6 in 3 chunks: [0;3;6], [1;4], [2;5]. *)
Lemma stepchunk_nth_witness :
  List.length (stepchunk [0;1;2;3;4;5;6] (Z.of_nat 3) None) = 3%nat /\
  forall i k, (i < 3)%nat ->
    nth_error (nth i (stepchunk [0;1;2;3;4;5;6] (Z.of_nat 3) None) []) k =
    if Nat.ltb (k * 3) (Z.to_nat (maxlength_or 7 None)) then nth_error [0;1;2;3;4;5;6] (i + k * 3)
    else None.
Proof.
  apply (StepchunkProofs.stepchunk_nth [0;1;2;3;4;5;6] 3 None).
  - lia.
  - discriminate.
Defined.

Module ErodeProofs.

Lemma conv3d_pad1_expand t i j k :
  conv3d_pad1 t i j k =
  at3 t (i - 1) j k + at3 t i (j - 1) k + at3 t i j (k - 1) + at3 t i j k +
  at3 t i j (k + 1) + at3 t i (j + 1) k + at3 t (i + 1) j k.
Proof.
  unfold conv3d_pad1. cbn [fold_left].
  repeat match goal with
         | |- context [at3 erode_kernel ?a ?b ?c] =>
             let v := eval vm_compute in (at3 erode_kernel a b c) in
             change (at3 erode_kernel a b c) with v
         end.
  replace (i + 0 - 1) with (i - 1) by ring. replace (i + 1 - 1) with i by ring.
  replace (i + 2 - 1) with (i + 1) by ring.
  replace (j + 0 - 1) with (j - 1) by ring. replace (j + 1 - 1) with j by ring.
  replace (j + 2 - 1) with (j + 1) by ring.
  replace (k + 0 - 1) with (k - 1) by ring. replace (k + 1 - 1) with k by ring.
  replace (k + 2 - 1) with (k + 1) by ring.
  ring.
Qed.

Lemma nth_map_seq {A} (f : nat -> A) n i d :
  (i < n)%nat -> nth i (map f (seq 0 n)) d = f i.
Proof.
  intros Hi. rewrite (nth_indep _ d (f 0%nat)) by (rewrite length_map, length_seq; exact Hi).
  rewrite map_nth, seq_nth by exact Hi. reflexivity.
Qed.

Lemma at3_binary t D H W i j k :
  binary3 t D H W -> at3 t i j k = 0 \/ at3 t i j k = 1.
Proof.
  intros [_ HF]. unfold at3.
  destruct ((i <? 0) || (j <? 0) || (k <? 0))%bool; [left; reflexivity |].
  destruct (Nat.lt_ge_cases (Z.to_nat i) (List.length t)) as [Hi | Hi];
    [| rewrite (nth_overflow t) by exact Hi; destruct (Z.to_nat j), (Z.to_nat k); left; reflexivity].
  pose proof (proj1 (Forall_forall _ _) HF _ (nth_In t [] Hi)) as [_ Hp].
  set (p := nth (Z.to_nat i) t []) in *.
  destruct (Nat.lt_ge_cases (Z.to_nat j) (List.length p)) as [Hj | Hj];
    [| rewrite (nth_overflow p) by exact Hj; destruct (Z.to_nat k); left; reflexivity].
  pose proof (proj1 (Forall_forall _ _) Hp _ (nth_In p [] Hj)) as [_ Hr].
  set (r := nth (Z.to_nat j) p []) in *.
  destruct (Nat.lt_ge_cases (Z.to_nat k) (List.length r)) as [Hk | Hk];
    [| rewrite (nth_overflow r) by exact Hk; left; reflexivity].
  exact (proj1 (Forall_forall _ _) Hr _ (nth_In r 0 Hk)).
Qed.

Lemma at3_erode_once t D H W i j k :
  binary3 t D H W -> (D > 0)%nat -> (H > 0)%nat ->
  0 <= i < Z.of_nat D -> 0 <= j < Z.of_nat H -> 0 <= k < Z.of_nat W ->
  at3 (erode_once t) i j k = if conv3d_pad1 t i j k =? 7 then 1 else 0.
Proof.
  intros [HD HF] HD0 HH0 Hi Hj Hk.
  destruct t as [| p t']; [cbn in HD; lia |].
  apply Forall_cons_iff in HF as [[Hp Hr] HF'].
  destruct p as [| r p']; [cbn in Hp; lia |].
  apply Forall_cons_iff in Hr as [[Hw _] _].
  unfold erode_once, at3 at 1. cbn [hd].
  destruct (Z.ltb_spec i 0); [lia |]. destruct (Z.ltb_spec j 0); [lia |].
  destruct (Z.ltb_spec k 0); [lia |]. cbn [orb].
  rewrite nth_map_seq by lia. rewrite nth_map_seq by (cbn [List.length] in *; lia).
  rewrite nth_map_seq by lia.
  rewrite !Z2Nat.id by lia. reflexivity.
Qed.

(** One erosion of a binary D x H x W tensor keeps a voxel at 1 exactly
    when it and its six face neighbours are 1, a neighbour outside the
    tensor counting as 0. *)
Theorem erode_once_spec t D H W i j k :
  binary3 t D H W -> (D > 0)%nat -> (H > 0)%nat ->
  0 <= i < Z.of_nat D -> 0 <= j < Z.of_nat H -> 0 <= k < Z.of_nat W ->
  at3 (erode_once t) i j k =
  if (at3 t i j k =? 1) && (at3 t (i - 1) j k =? 1) && (at3 t (i + 1) j k =? 1) &&
     (at3 t i (j - 1) k =? 1) && (at3 t i (j + 1) k =? 1) &&
     (at3 t i j (k - 1) =? 1) && (at3 t i j (k + 1) =? 1)
  then 1 else 0.
Proof.
  intros Hb HD HH Hi Hj Hk. rewrite (at3_erode_once t D H W) by assumption.
  rewrite conv3d_pad1_expand.
  pose proof (at3_binary t D H W i j k Hb).
  pose proof (at3_binary t D H W (i - 1) j k Hb).
  pose proof (at3_binary t D H W (i + 1) j k Hb).
  pose proof (at3_binary t D H W i (j - 1) k Hb).
  pose proof (at3_binary t D H W i (j + 1) k Hb).
  pose proof (at3_binary t D H W i j (k - 1) Hb).
  pose proof (at3_binary t D H W i j (k + 1) Hb).
  repeat match goal with H : _ \/ _ |- _ => destruct H as [-> | ->] end; reflexivity.
Qed.

(** Hence erosion only removes voxels, and clears every voxel on the
    boundary of the tensor (first or last index along any axis). *)
Theorem erode_once_shrinks t D H W i j k :
  binary3 t D H W -> (D > 0)%nat -> (H > 0)%nat ->
  0 <= i < Z.of_nat D -> 0 <= j < Z.of_nat H -> 0 <= k < Z.of_nat W ->
  at3 (erode_once t) i j k <= at3 t i j k /\
  (i = 0 \/ i = Z.of_nat D - 1 \/ j = 0 \/ j = Z.of_nat H - 1 \/ k = 0 \/ k = Z.of_nat W - 1 ->
   at3 (erode_once t) i j k = 0).
Proof.
  intros Hb HD HH Hi Hj Hk. rewrite (erode_once_spec t D H W) by assumption.
  pose proof (at3_binary t D H W i j k Hb).
  split.
  - destruct (at3 t i j k =? 1) eqn:E; cbn [andb];
      [apply Z.eqb_eq in E; destruct (_ && _); lia | lia].
  - assert (Hout : forall a b c, a = -1 \/ a = Z.of_nat D \/ b = -1 \/ b = Z.of_nat H \/
                                 c = -1 \/ c = Z.of_nat W -> at3 t a b c = 0).
    { intros a b c Habc. unfold at3.
      destruct (Z.ltb_spec a 0), (Z.ltb_spec b 0), (Z.ltb_spec c 0); cbn [orb]; try reflexivity.
      destruct Hb as [Hl HF].
      destruct (Nat.lt_ge_cases (Z.to_nat a) (List.length t)) as [Ha | Ha];
        [| rewrite (nth_overflow t) by exact Ha; destruct (Z.to_nat b), (Z.to_nat c); reflexivity].
      pose proof (proj1 (Forall_forall _ _) HF _ (nth_In t [] Ha)) as [Hp Hr].
      set (p := nth (Z.to_nat a) t []) in *.
      destruct (Nat.lt_ge_cases (Z.to_nat b) (List.length p)) as [Hb' | Hb'];
        [| rewrite (nth_overflow p) by exact Hb'; destruct (Z.to_nat c); reflexivity].
      pose proof (proj1 (Forall_forall _ _) Hr _ (nth_In p [] Hb')) as [Hw _].
      set (r := nth (Z.to_nat b) p []) in *.
      rewrite nth_overflow; [reflexivity |]. lia. }
    intros Hbd.
    destruct Hbd as [-> | [-> | [-> | [-> | [-> | ->]]]]];
      [ rewrite (Hout (0 - 1) j k) by lia
      | rewrite (Hout (Z.of_nat D - 1 + 1) j k) by lia
      | rewrite (Hout i (0 - 1) k) by lia
      | rewrite (Hout i (Z.of_nat H - 1 + 1) k) by lia
      | rewrite (Hout i j (0 - 1)) by lia
      | rewrite (Hout i j (Z.of_nat W - 1 + 1)) by lia ];
      cbn [Z.eqb]; rewrite ?andb_false_r; reflexivity.
Qed.

End ErodeProofs.

Lemma binary_erode3d_nat_iter n t :
  binary_erode3d_nat n t = Nat.iter (Nat.max 1 n) erode_once t.
Proof.
  induction n as [| [| m] IH]; [reflexivity | reflexivity |].
  change (binary_erode3d_nat (S (S m)) t) with (erode_once (binary_erode3d_nat (S m) t)). rewrite IH.
  replace (Nat.max 1 (S (S m))) with (S (Nat.max 1 (S m))) by lia. reflexivity.
Qed.

(** binary_erode3d(tensor, n) erodes n times when n >= 1 and once when
    n <= 1: n = 0 and negative n still erode once. *)
Theorem binary_erode3d_iterations t (n : Z) :
  binary_erode3d t n = Nat.iter (Z.to_nat (Z.max 1 n)) erode_once t.
Proof.
  unfold binary_erode3d. rewrite binary_erode3d_nat_iter. f_equal. lia.
Qed.

Ltac solve_binary3 :=
  split; [reflexivity |];
  repeat first [ apply Forall_nil | apply Forall_cons | split | reflexivity
               | (left; reflexivity) | (right; reflexivity) ].

(** The centre of a block of ones survives one erosion. *)
Lemma erode_once_spec_witness :
  at3 (erode_once ones3) 1 1 1 =
  if (at3 ones3 1 1 1 =? 1) && (at3 ones3 (1 - 1) 1 1 =? 1) && (at3 ones3 (1 + 1) 1 1 =? 1) &&
     (at3 ones3 1 (1 - 1) 1 =? 1) && (at3 ones3 1 (1 + 1) 1 =? 1) &&
     (at3 ones3 1 1 (1 - 1) =? 1) && (at3 ones3 1 1 (1 + 1) =? 1)
  then 1 else 0.
Proof.
  apply (ErodeProofs.erode_once_spec ones3 3 3 3 1 1 1);
    [vm_compute; solve_binary3 | lia | lia | cbn; lia | cbn; lia | cbn; lia].
Defined.

(** A corner of a block of ones is cleared. *)
Lemma erode_once_shrinks_witness :
  at3 (erode_once ones3) 0 0 2 <= at3 ones3 0 0 2 /\
  (0 = 0 \/ 0 = Z.of_nat 3 - 1 \/ 0 = 0 \/ 0 = Z.of_nat 3 - 1 \/ 2 = 0 \/ 2 = Z.of_nat 3 - 1 ->
   at3 (erode_once ones3) 0 0 2 = 0).
Proof.
  apply (ErodeProofs.erode_once_shrinks ones3 3 3 3 0 0 2);
    [vm_compute; solve_binary3 | lia | lia | cbn; lia | cbn; lia | cbn; lia].
Defined.

Module DigitsMore.

Lemma eval_digits_acc (b : Z) (ds : list Z) acc :
  fold_left (fun a d => a * b + d) ds acc =
  acc * b ^ Z.of_nat (List.length ds) + fold_left (fun a d => a * b + d) ds 0.
Proof.
  revert acc. induction ds as [| d ds IH]; intros acc; cbn [fold_left List.length].
  - cbn. ring.
  - rewrite (IH (acc * b + d)), (IH (0 * b + d)).
    rewrite Nat2Z.inj_succ, Z.pow_succ_r by lia. ring.
Qed.

Lemma digits_value (n b : Z) (k : nat) :
  2 <= b -> 0 <= n ->
  eval_digits b (map (fun e => (n / b ^ e) mod b) (arange_down k)) = n mod b ^ (Z.of_nat k + 1).
Proof.
  intros Hb Hn. unfold eval_digits. induction k as [| k IH].
  - cbn [arange_down map fold_left]. rewrite Z.pow_0_r, Z.div_1_r. cbn. rewrite ?Z.mul_1_r. reflexivity.
  - cbn [arange_down map fold_left]. rewrite eval_digits_acc, IH.
    rewrite length_map, arange_down_length.
    replace (Z.of_nat (S k) + 1) with ((Z.of_nat k + 1) + 1) by lia.
    replace (Z.of_nat (S k)) with (Z.of_nat k + 1) by lia.
    rewrite (Z.pow_add_r b (Z.of_nat k + 1) 1), Z.pow_1_r by lia.
    assert (Hp : 0 < b ^ (Z.of_nat k + 1)) by (apply Z.pow_pos_nonneg; lia).
    rewrite Z.rem_mul_r by lia. ring.
Qed.

(** When the float logarithm gives the right exponent
    ([base ^ top <= number < base ^ (top + 1)]), map_to_base returns the
    top + 1 digits of [number] in [base], most significant first: each in
    [0, base), the leading one not 0, with positional value [number]. *)
Theorem map_to_base_correct (number base : Z) (top : nat) :
  2 <= base -> 1 <= number ->
  base ^ Z.of_nat top <= number < base ^ (Z.of_nat top + 1) ->
  Forall (fun d => 0 <= d < base) (map_to_base number base top) /\
  List.length (map_to_base number base top) = S top /\
  eval_digits base (map_to_base number base top) = number /\
  exists d rest, map_to_base number base top = d :: rest /\ 1 <= d.
Proof.
  intros Hb Hn [Hlo Hhi]. unfold map_to_base.
  destruct (Z.eqb_spec number 0) as [-> | _]; [lia |].
  split; [| split; [| split]].
  - apply Forall_map. eapply Forall_impl; [| apply arange_down_nonneg].
    intros e _. apply Z.mod_pos_bound. lia.
  - rewrite length_map. apply arange_down_length.
  - rewrite digits_value by lia. apply Z.mod_small. lia.
  - destruct top as [| t]; cbn [arange_down map]; do 2 eexists; split; try reflexivity.
    + rewrite Z.pow_0_r, Z.div_1_r in *. rewrite Z.mod_small; cbn in Hhi; lia.
    + assert (Hp : 0 < base ^ Z.of_nat (S t)) by (apply Z.pow_pos_nonneg; lia).
      assert (Hq : 1 <= number / base ^ Z.of_nat (S t)).
      { apply (Z.div_le_mono _ _ (base ^ Z.of_nat (S t))) in Hlo; [| lia].
        rewrite Z.div_same in Hlo by lia. exact Hlo. }
      assert (Hr : number / base ^ Z.of_nat (S t) < base).
      { apply Z.div_lt_upper_bound; [lia |].
        rewrite Z.pow_add_r, Z.pow_1_r in Hhi by lia. lia. }
      rewrite Z.mod_small by lia. exact Hq.
Qed.

End DigitsMore.

(** map_to_base(345, 10) with the exponent 2. *)
Lemma map_to_base_correct_witness :
  Forall (fun d => 0 <= d < 10) (map_to_base 345 10 2) /\
  List.length (map_to_base 345 10 2) = 3%nat /\
  eval_digits 10 (map_to_base 345 10 2) = 345 /\
  exists d rest, map_to_base 345 10 2 = d :: rest /\ 1 <= d.
Proof. apply (DigitsMore.map_to_base_correct 345 10 2); cbn; lia. Defined.

Module FreezeMore.

Local Open Scope nat_scope.

Lemma unfreeze_loop_none (h : flags) (ps : list nat) (orig : list bool) i :
  i <= List.length orig ->
  unfreeze_loop h ps orig i = None <-> List.length orig < i + List.length ps.
Proof.
  revert h i. induction ps as [| p ps IH]; intros h i Hi; cbn [unfreeze_loop List.length].
  - split; [discriminate | lia].
  - destruct (nth_error orig i) as [b |] eqn:E.
    + assert (i < List.length orig) by (apply nth_error_Some; congruence).
      rewrite IH by lia. lia.
    + apply nth_error_None in E. split; [lia | reflexivity].
Qed.

(** unfreeze raises the IndexError exactly when the model now yields more
    parameters than FreezeModel recorded. *)
Theorem unfreeze_index_error (h : flags) (fm : FreezeModel) (ps : list nat) :
  unfreeze h fm ps = None <-> List.length fm.(original_requires_grads) < List.length ps.
Proof.
  unfold unfreeze. rewrite <- (unfreeze_loop_none h ps _ 0) by lia.
  destruct (unfreeze_loop h ps _ 0); split; congruence.
Qed.

(** count_parameters is 0 on a frozen model, and a following unfreeze
    brings back the count of trainable parameters of before. *)
Theorem count_parameters_freeze (numel : nat -> Z) (h : flags) (ps : list nat) :
  NoDup ps ->
  let '(h1, fm) := FreezeModel_init h ps in
  count_parameters numel h1 ps = 0%Z /\
  exists h2 fm', unfreeze h1 fm ps = Some (h2, fm') /\
                 count_parameters numel h2 ps = count_parameters numel h ps.
Proof.
  intros Hnd. unfold FreezeModel_init.
  assert (Hf := freeze_loop_spec ps Hnd h []).
  destruct (freeze_loop h ps []) as [h1 o] eqn:E. destruct Hf as [Ho Hh1].
  cbn in Ho. subst o.
  assert (Hin : forall q, In q ps -> in_params ps q = true).
  { intros q Hq. unfold in_params. apply existsb_exists. exists q.
    split; [exact Hq | apply Nat.eqb_refl]. }
  split.
  - unfold count_parameters.
    replace (filter h1 ps) with (@nil nat); [reflexivity |].
    assert (Hz : forall q, In q ps -> h1 q = false).
    { intros q Hq. rewrite Hh1, (Hin q Hq). reflexivity. }
    clear -Hz. induction ps as [| p ps IH]; [reflexivity |].
    cbn. rewrite (Hz p (or_introl eq_refl)).
    apply IH. intros q Hq. apply Hz. right. exact Hq.
  - destruct (unfreeze_loop_spec h ps h1 (map h ps) 0) as [h2 [Hu Hh2]].
    { intros k p Hk. cbn. rewrite nth_error_map, Hk. reflexivity. }
    unfold unfreeze. cbn. rewrite Hu.
    eexists; eexists. split; [reflexivity |].
    unfold count_parameters. f_equal. f_equal. apply filter_ext_in.
    intros q Hq. rewrite Hh2, (Hin q Hq). reflexivity.
Qed.

End FreezeMore.

(** A model yielding three parameters after two were recorded. *)
Lemma unfreeze_index_error_witness :
  unfreeze (fun _ => true) (mkFreeze [true; false] [0%nat; 1%nat] true) [0%nat; 1%nat; 2%nat] = None.
Proof. apply FreezeMore.unfreeze_index_error. cbn. lia. Defined.

(** Parameters 0 (10 elements, trainable) and 1 (5 elements, frozen). *)
Lemma count_parameters_freeze_witness :
  let '(h1, fm) := FreezeModel_init (fun q => Nat.eqb q 0) [0%nat; 1%nat] in
  count_parameters (fun q => if Nat.eqb q 0 then 10%Z else 5%Z) h1 [0%nat; 1%nat] = 0%Z /\
  exists h2 fm', unfreeze h1 fm [0%nat; 1%nat] = Some (h2, fm') /\
                 count_parameters (fun q => if Nat.eqb q 0 then 10%Z else 5%Z) h2 [0%nat; 1%nat]
                 = count_parameters (fun q => if Nat.eqb q 0 then 10%Z else 5%Z) (fun q => Nat.eqb q 0) [0%nat; 1%nat].
Proof.
  apply (FreezeMore.count_parameters_freeze _ (fun q => Nat.eqb q 0) [0%nat; 1%nat]).
  constructor; [cbn; intros [H | []]; discriminate | constructor; [intros [] | constructor]].
Defined.

Section EpochProofs.

Context {Tensor Obj Exn : Type}.
Variable fw : @FwCall Tensor Obj -> @Res Exn Tensor.
Variable has_callable : Obj -> string -> bool.

Ltac split_fw' :=
  repeat (simpl in *;
          match goal with
          | H : context [match fw ?c with _ => _ end] |- _ =>
              let E := fresh "E" in destruct (fw c) eqn:E
          | H : context [if has_callable ?o ?n then _ else _] |- _ =>
              destruct (has_callable o n)
          end).

Definition batch_events (train : bool) : list string :=
  if train
  then ["train"; "forward"; "get_loss"; "zero_grad"; "backward";
        "optimizer_step"; "scheduler_step"]%string
  else ["train"; "forward"; "get_loss"]%string.

Lemma one_batch_run (inputs targets : Tensor) (train : bool) (s s' : @St Tensor Obj) :
  DefaultOneBatchCB fw has_callable inputs targets train s = (Ok tt, s') ->
  exists added,
    s'.(trace) = s.(trace) ++ added /\
    event_names added = batch_events train /\
    s'.(lrn).(cur_batch) = s.(lrn).(cur_batch).
Proof.
  intros H. destruct s as [[] tr].
  unfold DefaultOneBatchCB, learner_train, learner_forward, learner_get_loss,
    learner_zero_grad, learner_backward, learner_optimizer_step,
    learner_scheduler_step, dispatch, DefaultTrainCB, DefaultForwardCB,
    DefaultGetLossCB, DefaultZeroGradCB, DefaultBackwardCB,
    DefaultOptimizerStepCB, DefaultSchedulerStepCB, with_ctx, call_, call,
    bind, ret, log, get_learner, put_learner in *.
  destruct train, accelerator0, scheduler0;
    split_fw'; try discriminate;
    inversion H; subst; cbn;
    (eexists; split; [rewrite <- ?app_assoc; reflexivity |]);
    rewrite ?event_names_app; cbn; split; reflexivity.
Qed.

Lemma one_epoch_loop_run (dl : list (Tensor * Tensor)) (train : bool) :
  forall i (s s' : @St Tensor Obj),
  one_epoch_loop fw has_callable i dl train s = (Ok tt, s') ->
  exists added,
    s'.(trace) = s.(trace) ++ added /\
    event_names added = List.concat (map (fun _ => ("one_batch" :: batch_events train)%string) dl) /\
    s'.(lrn).(cur_batch) =
      match dl with [] => s.(lrn).(cur_batch) | _ => i + Z.of_nat (List.length dl) - 1 end.
Proof.
  induction dl as [| [x y] dl IH]; intros i s s' H.
  - cbn in H. injection H as <-. exists []. rewrite app_nil_r. repeat split.
  - cbn [one_epoch_loop] in H.
    unfold bind, get_learner, put_learner, learner_one_batch, dispatch, log in H.
    unfold bind in H. cbn [lrn trace] in H.
    match type of H with
    | context [DefaultOneBatchCB ?a ?b ?c ?d ?e ?f] =>
        destruct (DefaultOneBatchCB a b c d e f) as [[[] | ex] s2] eqn:E;
        [cbn beta iota in H | cbn in H; discriminate]
    end.
    destruct (one_batch_run x y train _ _ E) as [a1 [Ht1 [Hn1 Hc1]]].
    destruct (IH (i + 1) s2 s' H) as [a2 [Ht2 [Hn2 Hc2]]].
    cbn [trace lrn] in Ht1, Hc1.
    exists (Ev "one_batch"%string :: a1 ++ a2). split; [| split].
    + rewrite Ht2, Ht1, <- !app_assoc. reflexivity.
    + cbn [event_names flat_map]. unfold event_names in *.
      rewrite flat_map_app, Hn1, Hn2. reflexivity.
    + rewrite Hc2. destruct dl as [| d dl'].
      * rewrite Hc1. cbn. lia.
      * cbn [List.length]. lia.
Qed.

(** DefaultOneEpochCB, when the epoch completes: for every batch of the
    data loader, in order, the event one_batch followed by that batch's
    events (train, forward, get_loss, then zero_grad, backward,
    optimizer_step, scheduler_step when training); learner.cur_batch is
    left at the index of the last batch, and unchanged for an empty
    loader. *)
Theorem one_epoch_events (dl : list (Tensor * Tensor)) (train : bool) (s s' : @St Tensor Obj) :
  DefaultOneEpochCB fw has_callable dl train s = (Ok tt, s') ->
  exists added,
    s'.(trace) = s.(trace) ++ added /\
    event_names added = List.concat (map (fun _ => ("one_batch" :: batch_events train)%string) dl) /\
    s'.(lrn).(cur_batch) =
      match dl with [] => s.(lrn).(cur_batch) | _ => Z.of_nat (List.length dl) - 1 end.
Proof.
  intros H. destruct (one_epoch_loop_run dl train 0 s s' H) as [a [H1 [H2 H3]]].
  exists a. split; [exact H1 | split; [exact H2 |]]. rewrite H3. destruct dl; reflexivity.
Qed.

End EpochProofs.

(** Two training batches. *)
Lemma one_epoch_events_witness :
  exists s',
    DefaultOneEpochCB fw_ok (fun _ _ => true) [(7, 8); (9, 10)] true (mkSt learner0 []) = (Ok tt, s') /\
    exists added,
      s'.(trace) = [] ++ added /\
      event_names added = List.concat (map (fun _ => ("one_batch" :: batch_events true)%string) [(7, 8); (9, 10)]) /\
      s'.(lrn).(cur_batch) = Z.of_nat 2 - 1.
Proof.
  exists (snd (DefaultOneEpochCB fw_ok (fun _ _ => true) [(7, 8); (9, 10)] true (mkSt learner0 []))).
  split.
  - vm_compute. reflexivity.
  - apply (one_epoch_events fw_ok (fun _ _ => true) [(7, 8); (9, 10)] true (mkSt learner0 [])).
    vm_compute. reflexivity.
Defined.

Module FitProofs.

Lemma fit_epoch_ok e tr ht tf te :
  (ht = false \/ te <> 0) ->
  let '(cs, raised) := fit_epoch e tr ht tf te in
  raised = false /\
  count_occ bool_dec cs true = (if tr then 1 else 0)%nat /\
  count_occ bool_dec cs false =
    (if ht then (if Z.eqb (Z.modulo e te) 0 then 1 else 0) + (if tf && Z.eqb e 0 then 1 else 0) else 0)%nat.
Proof.
  intros Hte. unfold fit_epoch.
  destruct ht; [destruct Hte as [Hte | Hte]; [discriminate |] |];
    [destruct (Z.eqb_spec te 0); [contradiction |] |];
    destruct tf, tr, (e =? 0), (e mod te =? 0); cbn; repeat split.
Qed.

(** DefaultFitCB, when there is no test loader or test_every is not 0:
    the loop completes, total_epoch grows by the number of epochs, there
    is one training epoch per epoch (when there is a training loader), and
    the test epochs are one per epoch number divisible by test_every plus,
    with test_first, one more per epoch number 0 (epoch 0 is then tested
    twice, before and after its training). *)
Theorem fit_calls_counts (epochs : list Z) tr ht tf te :
  (ht = false \/ te <> 0) ->
  forall total,
  let '(calls, total', raised) := fit_calls epochs tr ht tf te total in
  raised = false /\
  total' = total + Z.of_nat (List.length epochs) /\
  count_occ bool_dec calls true = (if tr then List.length epochs else 0)%nat /\
  count_occ bool_dec calls false =
    (if ht then List.length (filter (fun e => Z.eqb (Z.modulo e te) 0) epochs) +
                (if tf then List.length (filter (fun e => Z.eqb e 0) epochs) else 0)
     else 0)%nat.
Proof.
  intros Hte. induction epochs as [| e es IH]; intros total; cbn [fit_calls].
  - destruct tr, ht, tf; cbn; repeat split; lia.
  - pose proof (fit_epoch_ok e tr ht tf te Hte) as He.
    destruct (fit_epoch e tr ht tf te) as [cs raised]. destruct He as (-> & Ht & Hf).
    specialize (IH (total + 1)).
    destruct (fit_calls es tr ht tf te (total + 1)) as [[rest total'] raised'].
    destruct IH as (-> & Htot & Ht' & Hf').
    rewrite !count_occ_app, Ht, Hf, Ht', Hf'. cbn [List.length filter].
    repeat split; [lia | destruct tr; lia |].
    destruct ht, tf, (e mod te =? 0), (e =? 0); cbn [andb List.length]; lia.
Qed.

(** DefaultFitCB with a test loader and test_every = 0 raises the
    ZeroDivisionError in its first epoch, after that epoch's training,
    before total_epoch is incremented. *)
Theorem fit_test_every_zero (e : Z) (es : list Z) tr tf total :
  fit_calls (e :: es) tr true tf 0 total =
  ((if (e =? 0) && tf then [false] else []) ++ (if tr then [true] else []), total, true).
Proof. cbn. rewrite andb_true_r. reflexivity. Qed.

End FitProofs.

(** Epochs 0..3, testing every 2 epochs and first. *)
Lemma fit_calls_counts_witness :
  let '(calls, total', raised) := fit_calls [0; 1; 2; 3] true true true 2 0 in
  raised = false /\
  total' = 0 + Z.of_nat (List.length [0; 1; 2; 3]) /\
  count_occ bool_dec calls true = List.length [0; 1; 2; 3] /\
  count_occ bool_dec calls false =
    (List.length (filter (fun e => Z.eqb (Z.modulo e 2) 0) [0%Z; 1%Z; 2%Z; 3%Z]) +
     List.length (filter (fun e => Z.eqb e 0) [0%Z; 1%Z; 2%Z; 3%Z]))%nat.
Proof. apply (FitProofs.fit_calls_counts [0; 1; 2; 3] true true true 2). right; lia. Defined.

(** seeded_randperm with a seed returns the permutation drawn from the
    freshly seeded CPU generator, whatever the generator states before the
    call, and gives the CPU, numpy and python generators back their
    previous states; the CUDA generators are left reseeded. *)
Theorem seeded_randperm_deterministic {RS Seed Exn : Type}
    (seeded_torch seeded_cuda seeded_numpy seeded_python : Seed -> RS)
    (randperm : nat -> RS -> list nat * RS) (n : nat) (sd : Seed) (r : Rngs) :
  seeded_randperm (Exn := Exn) seeded_torch seeded_cuda seeded_numpy seeded_python randperm n (Some sd) r
  = (inl (fst (randperm n (seeded_torch sd))),
     mkRngs r.(torch_cpu) (map (fun _ => seeded_cuda sd) r.(torch_cuda))
            r.(numpy_rng) r.(python_rng)).
Proof.
  unfold seeded_randperm, seeded_rng, randperm_body. cbn.
  destruct (randperm n (seeded_torch sd)) as [p t]. reflexivity.
Qed.

Section SaveBestProofs.

Context {Num : Type}.
Variable lt : Num -> Num -> bool.
Variable inf : Num.
Hypothesis lt_irrefl : forall x, lt x x = false.
Hypothesis lt_trans : forall x y z, lt x y = true -> lt y z = true -> lt x z = true.

Definition sb_inv (t : @SaveBest Num) : Prop :=
  (forall l, In l t.(sb_losses) -> lt l t.(sb_lowest_loss) = false) /\
  (t.(sb_lowest_loss) = inf \/ In t.(sb_lowest_loss) t.(sb_losses)) /\
  t.(sb_best_model) = state_dict t.(sb_model).

Lemma save_best_step_inv t l :
  sb_inv t ->
  sb_inv (save_best_step lt t l) /\
  (save_best_step lt t l).(sb_losses) = t.(sb_losses) ++ [l] /\
  (save_best_step lt t l).(sb_model) = t.(sb_model).
Proof.
  intros (Hlow & Hin & Hbest). unfold save_best_step, sb_inv.
  destruct (lt l (sb_lowest_loss t)) eqn:E; cbn; (split; [| split; reflexivity]);
    (split; [| split]).
  - intros x Hx. apply in_app_or in Hx as [Hx | [<- | []]]; [| apply lt_irrefl].
    destruct (lt x l) eqn:Ex; [| reflexivity].
    specialize (Hlow x Hx). rewrite (lt_trans _ _ _ Ex E) in Hlow. discriminate.
  - right. apply in_or_app. right. left. reflexivity.
  - reflexivity.
  - intros x Hx. apply in_app_or in Hx as [Hx | [<- | []]]; [apply Hlow; exact Hx | exact E].
  - destruct Hin as [Hi | Hi]; [left; exact Hi | right; apply in_or_app; left; exact Hi].
  - exact Hbest.
Qed.

Lemma save_best_run_inv ls : forall t,
  sb_inv t ->
  sb_inv (save_best_run lt t ls) /\
  (save_best_run lt t ls).(sb_losses) = t.(sb_losses) ++ ls /\
  (save_best_run lt t ls).(sb_model) = t.(sb_model).
Proof.
  induction ls as [| l ls IH]; intros t Ht; cbn [save_best_run fold_left].
  - rewrite app_nil_r. auto.
  - destruct (save_best_step_inv t l Ht) as (Ht1 & Hl1 & Hm1).
    destruct (IH _ Ht1) as (Ht2 & Hl2 & Hm2). unfold save_best_run in *.
    split; [exact Ht2 |]. rewrite Hl2, Hl1, <- app_assoc, Hm2, Hm1. auto.
Qed.

(** A Trainer built with save_best=True and run on batches with the given
    loss values records every loss in order; lowest_loss is inf or one of
    them, and no recorded loss is below it (for a [<] that is irreflexive
    and transitive, as on floats); and best_model is always the live
    [model.state_dict()], sharing the model's tensors rather than holding
    a snapshot of the best weights. *)
Theorem save_best_bookkeeping (params : SD) (loss_values : list Num) :
  let t := save_best_run lt (SaveBest_init inf params) loss_values in
  t.(sb_losses) = loss_values /\
  (t.(sb_lowest_loss) = inf \/ In t.(sb_lowest_loss) loss_values) /\
  (forall l, In l loss_values -> lt l t.(sb_lowest_loss) = false) /\
  sd_locs t.(sb_best_model) = sd_locs params.
Proof.
  assert (H0 : sb_inv (SaveBest_init inf params)).
  { split; [intros l [] | split; [left; reflexivity | reflexivity]]. }
  destruct (save_best_run_inv loss_values _ H0) as ((Hlow & Hin & Hbest) & Hl & Hm).
  cbn in Hl, Hm. cbn zeta.
  rewrite Hl in Hlow, Hin.
  split; [exact Hl | split; [exact Hin | split; [exact Hlow |]]].
  rewrite Hbest, Hm. reflexivity.
Qed.

End SaveBestProofs.

(** Loss values in Z with Z.ltb, inf standing as a large value. *)
Lemma save_best_bookkeeping_witness :
  let t := save_best_run Z.ltb (SaveBest_init 1000 params1) [5; 3; 4] in
  t.(sb_losses) = [5; 3; 4] /\
  (t.(sb_lowest_loss) = 1000 \/ In t.(sb_lowest_loss) [5; 3; 4]) /\
  (forall l, In l [5; 3; 4] -> Z.ltb l t.(sb_lowest_loss) = false) /\
  sd_locs t.(sb_best_model) = sd_locs params1.
Proof.
  apply (save_best_bookkeeping Z.ltb 1000).
  - intros x. apply Z.ltb_irrefl.
  - intros x y z H1 H2. apply Z.ltb_lt in H1, H2. apply Z.ltb_lt. lia.
Defined.

Section RestoreProofs.

Local Open Scope nat_scope.
Context {V : Type}.
Variable v0 : V.

Lemma length_write (h : @heap V) l v : List.length (write h l v) = List.length h.
Proof.
  revert l. induction h as [| x h IH]; intros [| l]; cbn; try reflexivity. rewrite IH. reflexivity.
Qed.

Lemma read_write_same (h : @heap V) l v : l < List.length h -> read v0 (write h l v) l = v.
Proof.
  unfold read. revert l. induction h as [| x h IH]; intros [| l] Hl; cbn in *; try lia;
    [reflexivity | apply IH; lia].
Qed.

Lemma NoDup_app_disj {A} (l l' : list A) a : NoDup (l ++ l') -> In a l -> ~ In a l'.
Proof.
  induction l as [| x l IH]; cbn; [tauto |]. intros Hnd [<- | Hin] Hin'.
  - inversion Hnd as [| ? ? Hx _]. apply Hx. apply in_or_app. right. exact Hin'.
  - inversion Hnd as [| ? ? _ Hnd']. exact (IH Hnd' Hin Hin').
Qed.

Lemma copy_shape :
  (forall v h h' v', copy_val v0 h v = (h', v') -> shape_val v v') /\
  (forall d h h' d', copy_state_dict v0 h d = (h', d') -> shape_sd d d').
Proof.
  apply SD_combined.
  - intros l h h' v' H. simpl in H. inversion H; subst. exact I.
  - intros d IH h h' v' H. simpl in H.
    destruct (copy_state_dict v0 h d) as [h1 d1] eqn:E. inversion H; subst.
    exact (IH _ _ _ E).
  - intros o h h' v' H. simpl in H. inversion H; subst. exact I.
  - intros h h' d' H. simpl in H. inversion H; subst. exact I.
  - intros k v IHv rest IHr h h' d' H. simpl in H.
    destruct (copy_val v0 h v) as [h1 v1] eqn:E1.
    destruct (copy_state_dict v0 h1 rest) as [h2 r2] eqn:E2.
    inversion H; subst. cbn. split; [reflexivity | split; [exact (IHv _ _ _ E1) | exact (IHr _ _ _ E2)]].
Qed.

Lemma shape_trans :
  (forall a b c, shape_val a b -> shape_val b c -> shape_val a c) /\
  (forall a b c, shape_sd a b -> shape_sd b c -> shape_sd a c).
Proof.
  apply SD_combined.
  - intros l [] [] H1 H2; cbn in *; tauto.
  - intros d IH [] [] H1 H2; cbn in *; try tauto. exact (IH _ _ H1 H2).
  - intros o [] [] H1 H2; cbn in *; tauto.
  - intros [] [] H1 H2; cbn in *; tauto.
  - intros k v IHv rest IHr [| k1 v1 r1] [| k2 v2 r2] H1 H2; cbn in *; try tauto.
    destruct H1 as (-> & Hv1 & Hr1), H2 as (-> & Hv2 & Hr2).
    split; [reflexivity | split; [exact (IHv _ _ Hv1 Hv2) | exact (IHr _ _ Hr1 Hr2)]].
Qed.

Lemma load_sd_cons (h : @heap V) k v rest k' v' r' :
  load_sd v0 h (SDCons k v rest) (SDCons k' v' r') =
  if String.eqb k k' then match load_val v0 h v v' with
    | Some h1 => load_sd v0 h1 rest r' | None => None end else None.
Proof. reflexivity. Qed.

Lemma sd_locs_cons k v rest : sd_locs (SDCons k v rest) = val_locs v ++ sd_locs rest.
Proof. reflexivity. Qed.

Lemma load_spec :
  (forall dst src (h : @heap V),
     shape_val dst src -> NoDup (val_locs dst) ->
     (forall l, In l (val_locs src) -> ~ In l (val_locs dst)) ->
     Forall (fun l => l < List.length h) (val_locs dst) ->
     exists h', load_val v0 h dst src = Some h' /\
       map (read v0 h') (val_locs dst) = map (read v0 h) (val_locs src) /\
       (forall q, ~ In q (val_locs dst) -> read v0 h' q = read v0 h q) /\
       List.length h' = List.length h) /\
  (forall dst src (h : @heap V),
     shape_sd dst src -> NoDup (sd_locs dst) ->
     (forall l, In l (sd_locs src) -> ~ In l (sd_locs dst)) ->
     Forall (fun l => l < List.length h) (sd_locs dst) ->
     exists h', load_sd v0 h dst src = Some h' /\
       map (read v0 h') (sd_locs dst) = map (read v0 h) (sd_locs src) /\
       (forall q, ~ In q (sd_locs dst) -> read v0 h' q = read v0 h q) /\
       List.length h' = List.length h).
Proof.
  apply SD_combined.
  - intros l [l' | d' | o'] h Hs Hnd Hdis HF; cbn in Hs; try contradiction.
    cbn. inversion HF as [| ? ? Hl _]; subst.
    eexists. split; [reflexivity |]. split; [| split].
    + cbn. rewrite read_write_same by exact Hl. reflexivity.
    + intros q Hq. apply read_write_other. intros ->. apply Hq. left. reflexivity.
    + apply length_write.
  - intros d IH [l' | d' | o'] h Hs Hnd Hdis HF; cbn in Hs; try contradiction.
    exact (IH d' h Hs Hnd Hdis HF).
  - intros o [l' | d' | o'] h Hs Hnd Hdis HF; cbn in Hs; try contradiction.
    exists h. cbn. auto.
  - intros [| k' v' r'] h Hs Hnd Hdis HF; cbn in Hs; try contradiction.
    exists h. cbn. auto.
  - intros k v IHv rest IHr [| k' v' r'] h Hs Hnd Hdis HF; cbn in Hs; try contradiction.
    destruct Hs as (<- & Hsv & Hsr). rewrite load_sd_cons, String.eqb_refl.
    rewrite !sd_locs_cons in *.
    apply Forall_app in HF as [HFv HFr].
    assert (Hdv : forall l, In l (val_locs v') -> ~ In l (val_locs v)).
    { intros l Hl Hin. apply (Hdis l); [apply in_or_app; left; exact Hl | apply in_or_app; left; exact Hin]. }
    assert (Hdr : forall l, In l (sd_locs r') -> ~ In l (sd_locs rest)).
    { intros l Hl Hin. apply (Hdis l); [apply in_or_app; right; exact Hl | apply in_or_app; right; exact Hin]. }
    destruct (IHv v' h Hsv (NoDup_app_remove_r _ _ Hnd) Hdv HFv) as (h1 & E1 & Hm1 & Hf1 & Hl1).
    rewrite E1.
    assert (HFr' : Forall (fun l => l < List.length h1) (sd_locs rest)) by (rewrite Hl1; exact HFr).
    destruct (IHr r' h1 Hsr (NoDup_app_remove_l _ _ Hnd) Hdr HFr') as (h2 & E2 & Hm2 & Hf2 & Hl2).
    exists h2. split; [exact E2 |]. split; [| split].
    + rewrite !map_app. f_equal.
      * rewrite <- Hm1. apply map_ext_in. intros q Hq. apply Hf2.
        exact (NoDup_app_disj _ _ q Hnd Hq).
      * rewrite Hm2. apply map_ext_in. intros q Hq. apply Hf1.
        intros Hin. apply (Hdis q); [apply in_or_app; right; exact Hq | apply in_or_app; left; exact Hin].
    + intros q Hq. rewrite Hf2, Hf1; [reflexivity | |];
        intros Hin; apply Hq; apply in_or_app; [left | right]; exact Hin.
    + rewrite Hl2. exact Hl1.
Qed.

(** BackupModule round trip: back up a model whose tensors are distinct
    (no two keys sharing a tensor), let training overwrite anything but the
    backup's own storages, and restore(): every tensor of the model holds
    again the value it had when the backup was made. *)
Theorem backup_restore_roundtrip (h : @heap V) (params : SD) h1 bm (h2 : @heap V) :
  Forall (fun l => l < List.length h) (sd_locs params) ->
  NoDup (sd_locs params) ->
  BackupModule_init v0 h params = (h1, bm) ->
  List.length h1 <= List.length h2 ->
  (forall l, List.length h <= l < List.length h1 -> read v0 h2 l = read v0 h1 l) ->
  exists h3, BackupModule_restore v0 h2 bm = Some h3 /\
             map (read v0 h3) (sd_locs params) = map (read v0 h) (sd_locs params).
Proof.
  intros HF Hnd Hinit Hlen Hkeep.
  unfold BackupModule_init, state_dict in Hinit.
  destruct (copy_state_dict v0 h params) as [h1' sd] eqn:E. inversion Hinit; subst. clear Hinit.
  destruct (proj2 (copy_state_dict_fresh v0) _ _ _ _ E HF) as [[e1 Hh1] [Hl1 Hm1]].
  assert (Hlh : List.length h <= List.length h1) by (rewrite Hh1, length_app; lia).
  pose proof (proj2 copy_shape _ _ _ _ E) as Hs1.
  unfold BackupModule_restore, state_dict. cbn [bm_state_dict bm_model].
  destruct (copy_state_dict v0 h2 sd) as [h2' sd'] eqn:E'.
  assert (HF2 : Forall (fun l => l < List.length h2) (sd_locs sd)).
  { eapply Forall_impl; [| exact Hl1]. intros l Hl. cbn in Hl. lia. }
  destruct (proj2 (copy_state_dict_fresh v0) _ _ _ _ E' HF2) as [[e2 Hh2] [Hl2 Hm2]].
  pose proof (proj2 copy_shape _ _ _ _ E') as Hs2.
  assert (Hvals : map (read v0 h2') (sd_locs sd') = map (read v0 h) (sd_locs params)).
  { rewrite Hm2, <- Hm1. apply map_ext_in. intros q Hq. apply Hkeep.
    rewrite Forall_forall in Hl1. exact (Hl1 q Hq). }
  assert (Hlh2 : List.length h2 <= List.length h2') by (rewrite Hh2, length_app; lia).
  destruct (proj2 load_spec params sd' h2' (proj2 shape_trans _ _ _ Hs1 Hs2) Hnd)
    as (h3 & Eload & Hm3 & _ & _).
  - intros l Hl Hin. rewrite Forall_forall in Hl2, HF.
    specialize (Hl2 l Hl). specialize (HF l Hin). lia.
  - eapply Forall_impl; [| exact HF]. intros l Hl. cbn in Hl. lia.
  - exists h3. split; [exact Eload |]. rewrite Hm3. exact Hvals.
Qed.

End RestoreProofs.

(** Back up a one-tensor model holding 5, train it to 6, restore: 5. *)
Lemma backup_restore_roundtrip_witness :
  exists h3, BackupModule_restore 0%Z [6%Z; 5%Z] (mkBackup params1 (SDCons "weight" (SDTensor 1) SDNil))
               = Some h3 /\
             map (read 0%Z h3) (sd_locs params1) = map (read 0%Z [5%Z]) (sd_locs params1).
Proof.
  apply (backup_restore_roundtrip 0%Z [5%Z] params1 [5%Z; 5%Z]).
  - repeat constructor.
  - repeat constructor. intros [].
  - reflexivity.
  - cbn. lia.
  - intros l Hl. cbn in Hl. assert (l = 1%nat) as -> by lia. reflexivity.
Defined.

Section ErrorsAmended.

Context {Num Exn Model : Type}.
Variable mul add div : Num -> Num -> Num.
Variable gt : Num -> Num -> bool.
Variable minimum : list Num -> Num.
Variable dflt : Num.
Variable is_zero : Num -> bool.
Variable zero : Num.
Variable div_nat : Num -> nat -> Num.
Variable lt : Num -> Num -> bool.
Variable inf : Num.



End ErrorsAmended.

